(** * Contact form: validation engine and submission controller

    A shallow embedding of the contact page script ([ContactFormValidator]
    and [ContactFormHandler]) together with the part of the browser it
    talks to: the four form controls, their form groups, the submit button,
    the character counter, the focused element and the notifications that
    were shown.

    JavaScript strings entered by the user are sequences of UTF-16 code
    units ([list N]); the texts the script itself produces (field names,
    error messages, labels) are literals and are kept as [string]. *)

From Stdlib Require Import Qcanon.
From stdpp Require Import gmap strings pretty.

(** ** JavaScript strings *)

Module Js.

(** A string value: its UTF-16 code units, so that [length] is the
    [.length] property. *)
Abbreviation str := (list N).

(** The code units of an ASCII literal. *)
Definition lit (s : string) : str := Ascii.N_of_ascii <$> String.list_ascii_of_string s.

(** ["x".repeat(n)] *)
Definition repeat (s : str) (n : nat) : str := mjoin (replicate n s).

(** [s.length] *)
Definition length (s : str) : N := N.of_nat (List.length s).

(** White space and line terminators of ECMAScript: what [\s] matches
    and what [trim] strips. *)
Definition is_space (c : N) : bool :=
  bool_decide (c ∈ [9; 10; 11; 12; 13; 32; 160; 5760; 8232; 8233; 8239; 8287;
                    12288; 65279]%N)
  || ((8192 <=? c) && (c <=? 8202))%N.

Fixpoint trimStart (s : str) : str :=
  match s with
  | [] => []
  | c :: r => if is_space c then trimStart r else s
  end.

Definition trimEnd (s : str) : str := rev (trimStart (rev s)).

(** [s.trim()] *)
Definition trim (s : str) : str := trimEnd (trimStart s).

(** [s === ""] *)
Definition is_empty (s : str) : bool :=
  match s with [] => true | _ => false end.

(** A value that may be [null] (what [FormData.get] returns for a name
    with no entry). [falsy] is [!v]. *)
Definition falsy (v : option str) : bool :=
  match v with
  | None => true
  | Some s => is_empty s
  end.

(** [a || b] on a possibly missing literal text. *)
Definition or_else (a : option string) (b : string) : string :=
  match a with
  | Some (String c r) => String c r
  | _ => b
  end.

End Js.

(** ** Regular expressions

    The fragment of JavaScript patterns the script uses, for patterns
    anchored at both ends ([^...$], no flags): character classes,
    concatenation, alternation and repetition. [test] decides whether the
    whole string matches, by derivatives. *)

Module Regex.

Inductive t : Type :=
| Void
| Eps
| Class (p : N → bool)
| Cat (r1 r2 : t)
| Alt (r1 r2 : t)
| Star (r : t).

(** [r+] *)
Definition Plus (r : t) : t := Cat r (Star r).

Fixpoint nullable (r : t) : bool :=
  match r with
  | Void => false
  | Eps => true
  | Class _ => false
  | Cat r1 r2 => nullable r1 && nullable r2
  | Alt r1 r2 => nullable r1 || nullable r2
  | Star _ => true
  end.

Fixpoint deriv (c : N) (r : t) : t :=
  match r with
  | Void => Void
  | Eps => Void
  | Class p => if p c then Eps else Void
  | Cat r1 r2 =>
      if nullable r1 then Alt (Cat (deriv c r1) r2) (deriv c r2)
      else Cat (deriv c r1) r2
  | Alt r1 r2 => Alt (deriv c r1) (deriv c r2)
  | Star r1 => Cat (deriv c r1) (Star r1)
  end.

(** [/^r$/.test(s)] *)
Fixpoint test (r : t) (s : Js.str) : bool :=
  match s with
  | [] => nullable r
  | c :: s' => test (deriv c r) s'
  end.

(** The language of a pattern. *)
Inductive lang : t → Js.str → Prop :=
| lang_eps : lang Eps []
| lang_class p c : p c = true → lang (Class p) [c]
| lang_cat r1 r2 s1 s2 : lang r1 s1 → lang r2 s2 → lang (Cat r1 r2) (s1 ++ s2)
| lang_alt_l r1 r2 s : lang r1 s → lang (Alt r1 r2) s
| lang_alt_r r1 r2 s : lang r2 s → lang (Alt r1 r2) s
| lang_star_nil r : lang (Star r) []
| lang_star_cons r s1 s2 :
    lang r s1 → lang (Star r) s2 → lang (Star r) (s1 ++ s2).

End Regex.

(** ** Configuration

    [PHONE_PATTERN], which nothing reads, is left out. *)

Record Messages := {
  SUCCESS : string;
  ERROR : string;
  VALIDATION_ERROR : string;
  NETWORK_ERROR : string;
}.

Record Config := {
  VALIDATION_DELAY : N;
  SUBMISSION_TIMEOUT : N;
  FORM_SUBMIT_URL : string;
  EMAIL_PATTERN : Regex.t;
  MIN_MESSAGE_LENGTH : N;
  MAX_MESSAGE_LENGTH : N;
  MESSAGES : Messages;
}.

(** [[^\s@]] *)
Definition not_space_at (c : N) : bool := negb (Js.is_space c || (c =? 64)%N).

(** [/^[^\s@]+@[^\s@]+\.[^\s@]+$/] *)
Definition email_regex : Regex.t :=
  Regex.Cat (Regex.Plus (Regex.Class not_space_at))
    (Regex.Cat (Regex.Class (N.eqb 64))
       (Regex.Cat (Regex.Plus (Regex.Class not_space_at))
          (Regex.Cat (Regex.Class (N.eqb 46))
             (Regex.Plus (Regex.Class not_space_at))))).

Definition CONTACT_CONFIG : Config := {|
  VALIDATION_DELAY := 300;
  SUBMISSION_TIMEOUT := 10000;
  FORM_SUBMIT_URL := "/api/contact";
  EMAIL_PATTERN := email_regex;
  MIN_MESSAGE_LENGTH := 10;
  MAX_MESSAGE_LENGTH := 1000;
  MESSAGES := {|
    SUCCESS := "Thank you for your message! We'll get back to you within 24 hours.";
    ERROR := "Sorry, there was an error sending your message. Please try again.";
    VALIDATION_ERROR := "Please fix the errors below and try again.";
    NETWORK_ERROR := "Network error. Please check your connection and try again.";
  |};
|}.

(** ** The page *)

(** Modelled from the spec: the markup of the contact page is not among
    the sources. The specification fixes the field set of the form as
    [name], [email], [subject] and [message], in this order; the script
    looks the controls up under these ids and reads their entries under
    the same names. Each control sits in its own [.form-group], which may
    hold an [.error-message] element. *)
Inductive FieldId := F_name | F_email | F_subject | F_message.

#[global] Instance FieldId_eq_dec : EqDecision FieldId.
Proof. solve_decision. Defined.

(** [field.name] *)
Definition field_name (f : FieldId) : string :=
  match f with
  | F_name => "name"
  | F_email => "email"
  | F_subject => "subject"
  | F_message => "message"
  end.

(** The [.error-message] element of a form group. *)
Record ErrorElement := {
  textContent : string;
  aria_live : option string;
}.

(** A control together with its form group. *)
Record Field := {
  value : Js.str;
  defaultValue : Js.str;
  disabled : bool;
  aria_invalid : option string;
  group_error : bool;            (* the group has class [error] *)
  group_success : bool;          (* the group has class [success] *)
  errorElement : option ErrorElement;
}.

Record Form := {
  f_name : Field;
  f_email : Field;
  f_subject : Field;
  f_message : Field;
}.

Definition get_field (f : FieldId) (fm : Form) : Field :=
  match f with
  | F_name => f_name fm
  | F_email => f_email fm
  | F_subject => f_subject fm
  | F_message => f_message fm
  end.

Definition update_field (f : FieldId) (g : Field → Field) (fm : Form) : Form :=
  match f with
  | F_name =>
      {| f_name := g (f_name fm); f_email := f_email fm;
         f_subject := f_subject fm; f_message := f_message fm |}
  | F_email =>
      {| f_name := f_name fm; f_email := g (f_email fm);
         f_subject := f_subject fm; f_message := f_message fm |}
  | F_subject =>
      {| f_name := f_name fm; f_email := f_email fm;
         f_subject := g (f_subject fm); f_message := f_message fm |}
  | F_message =>
      {| f_name := f_name fm; f_email := f_email fm;
         f_subject := f_subject fm; f_message := g (f_message fm) |}
  end.

(** Modelled from the spec: the controls of the form in tree order, the
    result of [form.querySelectorAll("input, select, textarea")]; the
    markup is not among the sources. *)
Definition all_fields : list FieldId := [F_name; F_email; F_subject; F_message].

(** [querySelectorAll(...).forEach(g)] *)
Definition each_field (g : Field → Field) (fm : Form) : Form :=
  foldr (λ f, update_field f g) fm all_fields.

Record Button := {
  btn_disabled : bool;
  btn_loading : bool;            (* class [loading] *)
  btn_text : string;
}.

Record Counter := {
  counter_text : string;
  counter_color : string;
}.

Inductive NotificationType := success_t | error_t | info_t.

Record Notification := {
  note_message : string;
  note_type : NotificationType;
}.

(** [new FormData(form)]: the entry list. *)
Abbreviation FormData := (list (string * Js.str)).

(** [formData.get(name)]: the first entry of that name, or [null]. *)
Fixpoint fd_get (name : string) (fd : FormData) : option Js.str :=
  match fd with
  | [] => None
  | (k, v) :: rest => if decide (k = name) then Some v else fd_get name rest
  end.

(** A call of the submit operation whose promise has not settled. *)
Record Pending := {
  sent : FormData;
  started : N;
}.

Record Validator := {
  errors : gmap string string;
  isValid : bool;
}.

(** The state the script reads and writes. *)
Record Page := {
  form : Form;
  submitButton : option Button;
  counter : option Counter;
  activeElement : option FieldId;       (* the focused control, if one is *)
  notifications : list Notification;    (* [showNotification] calls, newest first *)
  validator : Validator;
  isSubmitting : bool;
  pending : list Pending;               (* submit calls in flight *)
  debounced : option FieldId;           (* the armed validation timer *)
  clock : N;                            (* milliseconds since the page loaded *)
}.

Definition with_form (g : Form → Form) (s : Page) : Page :=
  {| form := g (form s); submitButton := submitButton s; counter := counter s;
     activeElement := activeElement s; notifications := notifications s;
     validator := validator s; isSubmitting := isSubmitting s;
     pending := pending s; debounced := debounced s; clock := clock s |}.

Definition with_submitButton (g : option Button → option Button) (s : Page) : Page :=
  {| form := form s; submitButton := g (submitButton s); counter := counter s;
     activeElement := activeElement s; notifications := notifications s;
     validator := validator s; isSubmitting := isSubmitting s;
     pending := pending s; debounced := debounced s; clock := clock s |}.

Definition with_counter (g : option Counter → option Counter) (s : Page) : Page :=
  {| form := form s; submitButton := submitButton s; counter := g (counter s);
     activeElement := activeElement s; notifications := notifications s;
     validator := validator s; isSubmitting := isSubmitting s;
     pending := pending s; debounced := debounced s; clock := clock s |}.

Definition with_activeElement (a : option FieldId) (s : Page) : Page :=
  {| form := form s; submitButton := submitButton s; counter := counter s;
     activeElement := a; notifications := notifications s;
     validator := validator s; isSubmitting := isSubmitting s;
     pending := pending s; debounced := debounced s; clock := clock s |}.

Definition with_notifications (g : list Notification → list Notification)
    (s : Page) : Page :=
  {| form := form s; submitButton := submitButton s; counter := counter s;
     activeElement := activeElement s; notifications := g (notifications s);
     validator := validator s; isSubmitting := isSubmitting s;
     pending := pending s; debounced := debounced s; clock := clock s |}.

Definition with_validator (g : Validator → Validator) (s : Page) : Page :=
  {| form := form s; submitButton := submitButton s; counter := counter s;
     activeElement := activeElement s; notifications := notifications s;
     validator := g (validator s); isSubmitting := isSubmitting s;
     pending := pending s; debounced := debounced s; clock := clock s |}.

Definition with_isSubmitting (b : bool) (s : Page) : Page :=
  {| form := form s; submitButton := submitButton s; counter := counter s;
     activeElement := activeElement s; notifications := notifications s;
     validator := validator s; isSubmitting := b;
     pending := pending s; debounced := debounced s; clock := clock s |}.

Definition with_pending (g : list Pending → list Pending) (s : Page) : Page :=
  {| form := form s; submitButton := submitButton s; counter := counter s;
     activeElement := activeElement s; notifications := notifications s;
     validator := validator s; isSubmitting := isSubmitting s;
     pending := g (pending s); debounced := debounced s; clock := clock s |}.

Definition with_debounced (d : option FieldId) (s : Page) : Page :=
  {| form := form s; submitButton := submitButton s; counter := counter s;
     activeElement := activeElement s; notifications := notifications s;
     validator := validator s; isSubmitting := isSubmitting s;
     pending := pending s; debounced := d; clock := clock s |}.

Definition with_clock (g : N → N) (s : Page) : Page :=
  {| form := form s; submitButton := submitButton s; counter := counter s;
     activeElement := activeElement s; notifications := notifications s;
     validator := validator s; isSubmitting := isSubmitting s;
     pending := pending s; debounced := debounced s; clock := g (clock s) |}.

(** ** Methods as state transformers *)

Definition M (A : Type) : Type := Page → A * Page.

Definition ret {A} (a : A) : M A := λ s, (a, s).

Definition bind {A B} (m : M A) (k : A → M B) : M B :=
  λ s, let '(a, s') := m s in k a s'.

(** A statement executed for its effect. *)
Definition modify (g : Page → Page) : M unit := λ s, (tt, g s).

Definition gets {A} (g : Page → A) : M A := λ s, (g s, s).

(** The state a method leaves behind. *)
Definition exec {A} (m : M A) (s : Page) : Page := (m s).2.

Declare Scope js_scope.
Delimit Scope js_scope with js.
Notation "x <- m ;; k" := (bind m (λ x, k))
  (at level 100, m at next level, right associativity) : js_scope.
Notation "m ;; k" := (bind m (λ _, k))
  (at level 100, right associativity) : js_scope.
Open Scope js_scope.

(** [a && b] as JavaScript evaluates it: [b] runs only when [a] is true. *)
Definition and_then (a b : M bool) : M bool :=
  r <- a ;; if r then b else ret false.

(** ** Browser operations *)

(** [element.focus()]. The focusing steps of HTML only move the focus to
    a focusable area, and a disabled control is none: on a disabled
    control the call does nothing. When the focus does move, the browser
    dispatches [blur] on the control that had it; the run of that
    control's listener is an event of the page ([Blur] in the event loop
    below), not part of this function. *)
Definition focus (f : FieldId) : M unit :=
  modify (λ s, if disabled (get_field f (form s)) then s
               else with_activeElement (Some f) s).

(** [showNotification(message, type)]: any notification on display is
    removed and the new one is shown. *)
Definition showNotification (message : string) (type : NotificationType) : M unit :=
  modify (with_notifications (cons {| note_message := message; note_type := type |})).

(** [new FormData(form)]: one entry per control that is not disabled. *)
Definition FormData_of (fm : Form) : FormData :=
  omap (λ f, if disabled (get_field f fm) then None
             else Some (field_name f, value (get_field f fm))) all_fields.

(** [form.reset()] *)
Definition form_reset : M unit :=
  modify (with_form (each_field (λ x,
    {| value := defaultValue x; defaultValue := defaultValue x;
       disabled := disabled x; aria_invalid := aria_invalid x;
       group_error := group_error x; group_success := group_success x;
       errorElement := errorElement x |}))).

(** ** ContactFormValidator *)

(** [new ContactFormValidator()] *)
Definition Validator_new : Validator := {| errors := ∅; isValid := true |}.

(** The effect of [addError] on the control and its group. *)
Definition mark_error (message : string) (x : Field) : Field :=
  {| value := value x; defaultValue := defaultValue x; disabled := disabled x;
     aria_invalid := Some "true";
     group_error := true; group_success := false;
     errorElement :=
       match errorElement x with
       | Some _ => Some {| textContent := message; aria_live := Some "polite" |}
       | None => None
       end |}.

(** The effect of [removeError] on the control and its group. *)
Definition mark_success (x : Field) : Field :=
  {| value := value x; defaultValue := defaultValue x; disabled := disabled x;
     aria_invalid := Some "false";
     group_error := false; group_success := true;
     errorElement :=
       match errorElement x with
       | Some e => Some {| textContent := ""; aria_live := aria_live e |}
       | None => None
       end |}.

Definition addError (field : FieldId) (message : string) : M unit :=
  modify (with_validator (λ v,
    {| errors := <[field_name field := message]> (errors v); isValid := false |})) ;;
  modify (with_form (update_field field (mark_error message))).

Definition removeError (field : FieldId) : M unit :=
  modify (with_validator (λ v,
    {| errors := delete (field_name field) (errors v); isValid := isValid v |})) ;;
  modify (with_form (update_field field mark_success)).

Definition validateRequired (field : FieldId) (value : option Js.str)
    (fieldName : string) : M bool :=
  if Js.falsy value || Js.is_empty (Js.trim (default [] value)) then
    addError field (fieldName +:+ " is required") ;; ret false
  else
    removeError field ;; ret true.

Definition validateEmail (field : FieldId) (email : option Js.str) : M bool :=
  if Js.falsy email then ret false
  else if negb (Regex.test (EMAIL_PATTERN CONTACT_CONFIG) (default [] email)) then
    addError field "Please enter a valid email address" ;; ret false
  else
    removeError field ;; ret true.

Definition validateMessage (field : FieldId) (message : option Js.str) : M bool :=
  if Js.falsy message then ret false
  else if (Js.length (default [] message) <? MIN_MESSAGE_LENGTH CONTACT_CONFIG)%N then
    addError field ("Message must be at least "
                    +:+ pretty (MIN_MESSAGE_LENGTH CONTACT_CONFIG)
                    +:+ " characters") ;;
    ret false
  else if (MAX_MESSAGE_LENGTH CONTACT_CONFIG <? Js.length (default [] message))%N then
    addError field ("Message must be less than "
                    +:+ pretty (MAX_MESSAGE_LENGTH CONTACT_CONFIG)
                    +:+ " characters") ;;
    ret false
  else
    removeError field ;; ret true.

Definition validateForm (formData : FormData) : M bool :=
  modify (with_validator (λ v, {| errors := ∅; isValid := isValid v |})) ;;
  modify (with_validator (λ v, {| errors := errors v; isValid := true |})) ;;
  let nameField := F_name in
  let emailField := F_email in
  let subjectField := F_subject in
  let messageField := F_message in
  validateRequired nameField (fd_get "name" formData) "Name" ;;
  and_then (validateRequired emailField (fd_get "email" formData) "Email")
           (validateEmail emailField (fd_get "email" formData)) ;;
  validateRequired subjectField (fd_get "subject" formData) "Subject" ;;
  and_then (validateRequired messageField (fd_get "message" formData) "Message")
           (validateMessage messageField (fd_get "message" formData)) ;;
  gets (λ s, isValid (validator s)).

(** ** ContactFormHandler *)

(** What the submit operation answers. *)
Record Response := {
  success : bool;
  message : option string;
}.

(** How the promise of the submit operation settles. *)
Inductive Outcome :=
| Resolved (response : Response)
| Rejected.

(** [updateCounter] of [setupCharacterCounter]. *)
Definition updateCounter : M unit :=
  modify (λ s,
    let length := Js.length (value (get_field F_message (form s))) in
    let remaining := (Z.of_N (MAX_MESSAGE_LENGTH CONTACT_CONFIG) - Z.of_N length)%Z in
    with_counter (λ _, Some {|
      counter_text := pretty length +:+ "/"
                      +:+ pretty (MAX_MESSAGE_LENGTH CONTACT_CONFIG) +:+ " characters";
      counter_color :=
        if (remaining <? 50)%Z then "#dc3545"
        else if (remaining <? 100)%Z then "#ffc107"
        else "#6c757d" |}) s).

Definition validateField (field : FieldId) : M unit :=
  s <- gets id ;;
  let value := Some (Js.trim (value (get_field field (form s)))) in
  match field with
  | F_name => validateRequired field value "Name" ;; ret tt
  | F_email =>
      and_then (validateRequired field value "Email") (validateEmail field value) ;;
      ret tt
  | F_subject => validateRequired field value "Subject" ;; ret tt
  | F_message =>
      and_then (validateRequired field value "Message") (validateMessage field value) ;;
      ret tt
  end.

Definition set_disabled (b : bool) (x : Field) : Field :=
  {| value := value x; defaultValue := defaultValue x; disabled := b;
     aria_invalid := aria_invalid x;
     group_error := group_error x; group_success := group_success x;
     errorElement := errorElement x |}.

Definition setSubmittingState (isSubmitting : bool) : M unit :=
  modify (with_isSubmitting isSubmitting) ;;
  modify (with_submitButton (λ b,
    match b with
    | Some _ =>
        Some {| btn_disabled := isSubmitting;
                btn_loading := isSubmitting;
                btn_text := if isSubmitting then "Sending..." else "Send Message" |}
    | None => None
    end)) ;;
  modify (with_form (each_field (set_disabled isSubmitting))).

Definition clear_marks (x : Field) : Field :=
  {| value := value x; defaultValue := defaultValue x; disabled := disabled x;
     aria_invalid := None;
     group_error := false; group_success := false;
     errorElement :=
       match errorElement x with
       | Some e => Some {| textContent := ""; aria_live := aria_live e |}
       | None => None
       end |}.

Definition clearValidationStates : M unit :=
  modify (with_form (each_field clear_marks)).

Definition focusFirstError : M unit :=
  s <- gets id ;;
  match filter (λ f, group_error (get_field f (form s)) = true) all_fields with
  | firstErrorField :: _ => focus firstErrorField
  | [] => ret tt
  end.

Definition handleSuccess : M unit :=
  showNotification (SUCCESS (MESSAGES CONTACT_CONFIG)) success_t ;;
  form_reset ;;
  clearValidationStates ;;
  modify (with_counter (λ c,
    match c with
    | Some _ =>
        Some {| counter_text :=
                  "0/" +:+ pretty (MAX_MESSAGE_LENGTH CONTACT_CONFIG) +:+ " characters";
                counter_color := "#6c757d" |}
    | None => None
    end)) ;;
  match all_fields with
  | firstField :: _ => focus firstField
  | [] => ret tt
  end.

Definition handleError (message : string) : M unit :=
  showNotification message error_t.

(** The simulated submit operation: a promise that resolves with
    [{ success: true }] from a timer of 2000 ms (a timer fires no earlier
    than its delay, and may fire later). *)
Definition submitForm_delay : N := 2000.
Definition submitForm_outcome : Outcome :=
  Resolved {| success := true; message := None |}.

(** [this.submitForm(formData)]: the call is recorded as in flight. *)
Definition submitForm (formData : FormData) : M unit :=
  modify (λ s, with_pending (cons {| sent := formData; started := clock s |}) s).

(** [handleSubmit] up to the point where it waits for the promise. *)
Definition handleSubmit : M unit :=
  submitting <- gets isSubmitting ;;
  if submitting then ret tt
  else
    fm <- gets form ;;
    let formData := FormData_of fm in
    ok <- validateForm formData ;;
    if negb ok then
      showNotification (VALIDATION_ERROR (MESSAGES CONTACT_CONFIG)) error_t ;;
      focusFirstError
    else
      setSubmittingState true ;;
      submitForm formData.

(** [handleSubmit] from the point where the promise has settled: the
    [try] body after [await], [catch] and [finally]. *)
Definition handleSubmit_resume (o : Outcome) : M unit :=
  match o with
  | Resolved response =>
      if success response then handleSuccess
      else handleError (Js.or_else (message response) (ERROR (MESSAGES CONTACT_CONFIG)))
  | Rejected => handleError (NETWORK_ERROR (MESSAGES CONTACT_CONFIG))
  end ;;
  setSubmittingState false.

(** [new ContactFormHandler()] on a freshly loaded page. *)
Definition ContactFormHandler_new (fm : Form) (button : option Button) : Page :=
  exec updateCounter
    {| form := fm; submitButton := button; counter := None;
       activeElement := None; notifications := [];
       validator := Validator_new; isSubmitting := false;
       pending := []; debounced := None; clock := 0 |}.

(** ** The event loop

    What can happen to the page: the listeners the handler registered run,
    the promise of a submit call settles, the debounce timer fires, time
    passes. The submit operation is the handler's collaborator: when and
    how its promise settles is an event, not something the handler
    decides. *)

Inductive Event :=
| Submit                                (* [submit] on the form *)
| Settle (o : Outcome)                  (* the awaited promise settles *)
| Blur (f : FieldId)                    (* [blur] on a control *)
| Input (f : FieldId) (v : Js.str)      (* the user edits a control *)
| Timer                                 (* the debounce timer fires *)
| Elapse (ms : N).                      (* time passes *)

Definition set_value (v : Js.str) (x : Field) : Field :=
  {| value := v; defaultValue := defaultValue x; disabled := disabled x;
     aria_invalid := aria_invalid x;
     group_error := group_error x; group_success := group_success x;
     errorElement := errorElement x |}.

Definition step (e : Event) (s : Page) : Page :=
  match e with
  | Submit => exec handleSubmit s
  | Settle o =>
      match pending s with
      | [] => s
      | _ :: rest => exec (handleSubmit_resume o) (with_pending (λ _, rest) s)
      end
  | Blur f => exec (validateField f) s
  | Input f v =>
      if disabled (get_field f (form s)) then s
      else
        let s1 := with_form (update_field f (set_value v)) s in
        let s2 := match f with F_message => exec updateCounter s1 | _ => s1 end in
        with_debounced (Some f) s2
  | Timer =>
      match debounced s with
      | Some f => exec (validateField f) (with_debounced None s)
      | None => s
      end
  | Elapse ms => with_clock (λ t, (t + ms)%N) s
  end.

Definition run (es : list Event) (s : Page) : Page :=
  foldl (λ s e, step e s) s es.

(** ** The email shape of the specification

    Written from the specification's words, to be compared with
    [EMAIL_PATTERN]: at least one [@], at least one [.] after it, no
    white space. *)

(** Some [@] has a [.] somewhere after it; the first [@] decides. *)
Fixpoint at_then_dot (s : Js.str) : bool :=
  match s with
  | [] => false
  | c :: r => if (c =? 64)%N then existsb (N.eqb 46) r else at_then_dot r
  end.

Definition spec_email_shape (s : Js.str) : bool :=
  at_then_dot s && forallb (λ c, negb (Js.is_space c)) s.

(** ** Reading the page *)

(** The control is marked as having passed its checks. *)
Definition marked_success (x : Field) : Prop :=
  group_success x = true ∧ group_error x = false ∧
  aria_invalid x = Some "false" ∧
  ∀ e, errorElement x = Some e → textContent e = "".

(** The control is marked as failing with the inline text [message]. *)
Definition marked_error (message : string) (x : Field) : Prop :=
  group_error x = true ∧ group_success x = false ∧
  aria_invalid x = Some "true" ∧
  ∀ e, errorElement x = Some e → textContent e = message.

(** The control carries no mark of either kind. *)
Definition unmarked (x : Field) : Prop :=
  group_error x = false ∧ group_success x = false ∧
  aria_invalid x = None ∧
  ∀ e, errorElement x = Some e → textContent e = "".

(** The two forms hold the same values in controls of the same state. *)
Definition same_controls (a b : Form) : Prop :=
  ∀ f, value (get_field f a) = value (get_field f b) ∧
       defaultValue (get_field f a) = defaultValue (get_field f b) ∧
       disabled (get_field f a) = disabled (get_field f b).

(** An outcome that is not a success: the promise was rejected (the
    operation threw), or it resolved with a response whose [success] is
    not set. *)
Definition is_failure (o : Outcome) : bool :=
  match o with
  | Resolved response => negb (success response)
  | Rejected => true
  end.

(** An event other than the settling of the promise. *)
Definition is_settle (e : Event) : bool :=
  match e with
  | Settle _ => true
  | _ => false
  end.

(** ** Sample pages *)

Definition blank_control : Field := {|
  value := []; defaultValue := []; disabled := false;
  aria_invalid := None; group_error := false; group_success := false;
  errorElement := Some {| textContent := ""; aria_live := None |};
|}.

(** A form as the user filled it in. *)
Definition filled_form (name email subject message : Js.str) : Form := {|
  f_name := set_value name blank_control;
  f_email := set_value email blank_control;
  f_subject := set_value subject blank_control;
  f_message := set_value message blank_control;
|}.

Definition send_button : Button :=
  {| btn_disabled := false; btn_loading := false; btn_text := "Send Message" |}.

(** [{name: "", email: "a@b.com", subject: "Hi", message: "short"}] *)
Definition invalid_values : FormData :=
  [("name", Js.lit ""); ("email", Js.lit "a@b.com");
   ("subject", Js.lit "Hi"); ("message", Js.lit "short")].

(** [{name: "Jo", email: "jo@x.com", subject: "Hi", message: "x".repeat(20)}] *)
Definition valid_form : Form :=
  filled_form (Js.lit "Jo") (Js.lit "jo@x.com") (Js.lit "Hi")
              (Js.repeat (Js.lit "x") 20).

(** The page with the valid form, once the handler is constructed. *)
Definition valid_page : Page := ContactFormHandler_new valid_form (Some send_button).

(** ** Invariants of the event loop *)

(** The two pages agree on everything but the validator and the marks of
    the controls. *)
Definition same_outside_validation (a b : Page) : Prop :=
  same_controls (form a) (form b) ∧
  submitButton a = submitButton b ∧ counter a = counter b ∧
  activeElement a = activeElement b ∧ notifications a = notifications b ∧
  isSubmitting a = isSubmitting b ∧ pending a = pending b ∧
  debounced a = debounced b ∧ clock a = clock b.

(** While [isSubmitting] is set exactly one submit call is in flight and
    every control is disabled; otherwise no call is in flight. *)
Definition submitting_inv (s : Page) : Prop :=
  if isSubmitting s
  then (∃ p, pending s = [p]) ∧ ∀ f, disabled (get_field f (form s)) = true
  else pending s = [].

(** ** Proof automation *)

(** Reduce the projections and updates of the page. *)
Ltac page_simpl :=
  cbv beta iota zeta delta [form submitButton counter activeElement notifications validator
       isSubmitting pending debounced clock errors isValid
       with_form with_submitButton with_counter with_activeElement
       with_notifications with_validator with_isSubmitting with_pending
       with_debounced with_clock
       exec bind ret modify gets fst snd
       f_name f_email f_subject f_message get_field update_field
       each_field all_fields foldr] in *.

Ltac split_ifs :=
  repeat match goal with
         | |- context [if ?b then _ else _] => destruct b eqn:?
         end.

(** Unfold the methods down to the page updates they perform. *)
Ltac method_unfold :=
  unfold handleSubmit, handleSubmit_resume, handleSuccess, handleError,
    validateField, validateForm, and_then,
    validateRequired, validateEmail, validateMessage, addError, removeError,
    setSubmittingState, submitForm, showNotification, focusFirstError, focus,
    form_reset, clearValidationStates, updateCounter;
  cbv beta iota zeta delta [bind ret modify gets exec fst snd].

(** ** Reading the validator against the page *)

(** The entry of the control in the error set and the marks of the
    control say the same: an entry with its text shown inline, or no
    entry and the control marked as passed. *)
Definition entry_matches_marks (f : FieldId) (s : Page) : Prop :=
  match errors (validator s) !! field_name f with
  | Some m => marked_error m (get_field f (form s))
  | None => marked_success (get_field f (form s))
  end.

(** From [s] to [s'] nothing changed but the validator and the marks of
    the control [f]: the entries and the controls of the other fields
    are as they were. *)
Definition only_field_changed (f : FieldId) (s s' : Page) : Prop :=
  same_outside_validation s' s ∧
  ∀ g, g ≠ f →
    errors (validator s') !! field_name g = errors (validator s) !! field_name g ∧
    get_field g (form s') = get_field g (form s).

(** The counter as [updateCounter] writes it for a message of [len]
    code units, with the colour read off the length: the danger colour
    above 950, the warning colour above 900, the muted colour otherwise. *)
Definition counter_shows (len : N) (c : Counter) : Prop :=
  counter_text c = pretty len +:+ "/1000 characters" ∧
  counter_color c = if (950 <? len)%N then "#dc3545"
                    else if (900 <? len)%N then "#ffc107"
                    else "#6c757d".

(** The counter is up to date: it shows the length of the message. *)
Definition counter_current (s : Page) : Prop :=
  ∃ c, counter s = Some c ∧
       counter_shows (Js.length (value (get_field F_message (form s)))) c.

(** The place of a control in the form. *)
Definition field_index (f : FieldId) : nat :=
  match f with
  | F_name => 0
  | F_email => 1
  | F_subject => 2
  | F_message => 3
  end.

(** The page of an untouched form, once the handler is constructed. *)
Definition blank_page : Page :=
  ContactFormHandler_new (filled_form [] [] [] []) (Some send_button).

(** The entries of a form none of whose controls is disabled. *)
Definition all_entries (fm : Form) : FormData :=
  (λ f, (field_name f, value (get_field f fm))) <$> all_fields.

(** ** Events caused by the handler's own calls

    [before] and [after] are the page around a listener run. If the run
    moved the focus from one control to another, the browser has
    dispatched [blur] on the control that had it, and the blur listener
    of [bindEvents] runs for that control. *)
Definition blur_dispatched (before after : Page) : list Event :=
  match activeElement before, activeElement after with
  | Some h, Some f => if decide (h = f) then [] else [Blur h]
  | _, _ => []
  end.

(** What a [submit] on the form makes run, up to the point where
    [handleSubmit] returns or waits: the submit listener, and after it
    the blur listener of the control that lost the focus to
    [focusFirstError], if there is one. *)
Definition submit_events (s : Page) : list Event :=
  Submit :: blur_dispatched s (step Submit s).


(** * The landing page script: utilities *)

(** ** [debounce(func, wait)]

    The closure keeps one timer. A call of the debounced function cancels
    the timer and arms a new one, due [wait] ms later, that holds the
    arguments of the call; when the timer fires ([later]) [func] is called
    with them. A timer never fires before it is due. The state records
    the calls of both functions with the time they were made, newest
    first. *)

Module Debounce.
Section closure.
Context {A : Type}.
Variable wait : N.

Record t := {
  now : N;
  timeout : option (N * A);      (* the armed timer: when it is due, its arguments *)
  invoked : list (N * A);        (* calls of the debounced function *)
  calls : list (N * A);          (* calls of [func] *)
}.

Definition fresh : t :=
  {| now := 0; timeout := None; invoked := []; calls := [] |}.

Inductive event :=
| Invoke (args : A)              (* the debounced function is called *)
| Fire                           (* the timer fires, if it is due *)
| Elapse (ms : N).               (* time passes *)

Definition step (e : event) (st : t) : t :=
  match e with
  | Invoke args =>
      {| now := now st;
         timeout := Some ((now st + wait)%N, args);
         invoked := (now st, args) :: invoked st;
         calls := calls st |}
  | Fire =>
      match timeout st with
      | Some (due, args) =>
          if (due <=? now st)%N then
            {| now := now st; timeout := None; invoked := invoked st;
               calls := (now st, args) :: calls st |}
          else st
      | None => st
      end
  | Elapse ms =>
      {| now := (now st + ms)%N; timeout := timeout st;
         invoked := invoked st; calls := calls st |}
  end.

Definition run (es : list event) (st : t) : t := foldl (λ st e, step e st) st es.

End closure.
Arguments t : clear implicits.
Arguments event : clear implicits.
End Debounce.

(** ** [throttle(func, limit)]

    The closure keeps the flag [inThrottle]. A call of the throttled
    function while the flag is clear calls [func] at once, sets the flag
    and arms a timer, due [limit] ms later, that clears it; a call while
    the flag is set does nothing. *)

Module Throttle.
Section closure.
Context {A : Type}.
Variable limit : N.

Record t := {
  now : N;
  inThrottle : bool;
  release : option N;            (* the armed timer: when it is due *)
  invoked : list (N * A);        (* calls of the throttled function *)
  calls : list (N * A);          (* calls of [func] *)
}.

Definition fresh : t :=
  {| now := 0; inThrottle := false; release := None; invoked := []; calls := [] |}.

Inductive event :=
| Invoke (args : A)              (* the throttled function is called *)
| Release                        (* the timer fires, if it is due *)
| Elapse (ms : N).               (* time passes *)

Definition step (e : event) (st : t) : t :=
  match e with
  | Invoke args =>
      if negb (inThrottle st) then
        {| now := now st; inThrottle := true;
           release := Some (now st + limit)%N;
           invoked := (now st, args) :: invoked st;
           calls := (now st, args) :: calls st |}
      else
        {| now := now st; inThrottle := inThrottle st; release := release st;
           invoked := (now st, args) :: invoked st; calls := calls st |}
  | Release =>
      match release st with
      | Some due =>
          if (due <=? now st)%N then
            {| now := now st; inThrottle := false; release := None;
               invoked := invoked st; calls := calls st |}
          else st
      | None => st
      end
  | Elapse ms =>
      {| now := (now st + ms)%N; inThrottle := inThrottle st;
         release := release st; invoked := invoked st; calls := calls st |}
  end.

Definition run (es : list event) (st : t) : t := foldl (λ st e, step e st) st es.

End closure.
Arguments t : clear implicits.
Arguments event : clear implicits.
End Throttle.

(** What holds of every state a debounce closure reaches: the armed timer
    belongs to a recorded call of the debounced function and is due
    [wait] ms after it; every call of [func] carries the arguments of a
    call made at least [wait] ms earlier; the calls of [func], and the
    armed timer if there is one, are not more than the calls of the
    debounced function. *)
Definition debounce_inv {A} (wait : N) (st : Debounce.t A) : Prop :=
  (∀ due a, Debounce.timeout st = Some (due, a) →
     ∃ t0, (t0, a) ∈ Debounce.invoked st ∧ due = (t0 + wait)%N) ∧
  (∀ t a, (t, a) ∈ Debounce.calls st →
     ∃ t0, (t0, a) ∈ Debounce.invoked st ∧ (t0 + wait ≤ t)%N) ∧
  length (Debounce.calls st)
  + match Debounce.timeout st with Some _ => 1 | None => 0 end
  ≤ length (Debounce.invoked st).



(** ** [isValidEmail(email)]

    The pattern is the one of [CONTACT_CONFIG.EMAIL_PATTERN]. *)
Definition isValidEmail (email : Js.str) : bool :=
  let emailRegex := email_regex in
  Regex.test emailRegex email.

(** ** [formatPhoneNumber(phone)] *)

(** [\d] *)
Definition is_digit (c : N) : bool := (48 <=? c)%N && (c <=? 57)%N.

(** [phone.replace(/\D/g, "")] *)
Definition strip_non_digits (phone : Js.str) : Js.str := List.filter is_digit phone.

(** [r{n}] *)
Fixpoint regex_times (n : nat) (r : Regex.t) : Regex.t :=
  match n with
  | O => Regex.Eps
  | S n' => Regex.Cat r (regex_times n' r)
  end.

(** [/^(\d{3})(\d{3})(\d{4})$/] *)
Definition phone_regex : Regex.t :=
  Regex.Cat (regex_times 3 (Regex.Class is_digit))
    (Regex.Cat (regex_times 3 (Regex.Class is_digit))
       (regex_times 4 (Regex.Class is_digit))).

(** [cleaned.match(/^(\d{3})(\d{3})(\d{4})$/)]: the three groups of a
    match. The groups have fixed widths, so a string that matches is cut
    in one way only. *)
Definition match_phone (cleaned : Js.str) : option (Js.str * Js.str * Js.str) :=
  if Regex.test phone_regex cleaned
  then Some (take 3 cleaned, take 3 (drop 3 cleaned), drop 6 cleaned)
  else None.

Definition formatPhoneNumber (phone : Js.str) : Js.str :=
  let cleaned := strip_non_digits phone in
  match match_phone cleaned with
  | Some (m1, m2, m3) => Js.lit "(" ++ m1 ++ Js.lit ") " ++ m2 ++ Js.lit "-" ++ m3
  | None => phone
  end.

(** ** [getDeviceType()], for a window of the given inner width *)
Definition getDeviceType (width : Z) : string :=
  if (width <=? 480)%Z then "mobile"
  else if (width <=? 768)%Z then "tablet"
  else "desktop".

(** ** [sanitizeInput(input)]

    The text is stored as the only child of a fresh [div] and read back
    as markup. Serialising a text node escapes the ampersand, the
    no-break space and the two angle brackets, and nothing else. *)
Definition escape_text (c : N) : Js.str :=
  if (c =? 38)%N then Js.lit "&amp;"
  else if (c =? 160)%N then Js.lit "&nbsp;"
  else if (c =? 60)%N then Js.lit "&lt;"
  else if (c =? 62)%N then Js.lit "&gt;"
  else [c].

Definition sanitizeInput (input : Js.str) : Js.str :=
  let textContent := input in
  let innerHTML := mjoin (escape_text <$> textContent) in
  innerHTML.

(** * The landing page script: components *)

(** The constants of [CONFIG] that the modelled code reads. *)
Module CONFIG.
Definition ANIMATION_DELAY : N := 100.
Definition SCROLL_THRESHOLD : Z := 100.
Definition DEBOUNCE_DELAY : N := 16.
Definition THROTTLE_DELAY : N := 100.
Definition HEADER_HIDE_THRESHOLD : Z := 200.
End CONFIG.

(** ** HeaderScrollHandler

    Scroll positions are fractional numbers of pixels; they are only
    compared, with each other and with the thresholds, and are modelled
    as rationals. *)

Module HeaderScroll.

(** The inline style of the header, as far as the handler writes it (the
    empty string for a property that is not set). *)
Record Style := {
  backgroundColor : string;
  backdropFilter : string;
  transform : string;
}.

Record t := {
  header : Style;
  lastScrollTop : Qc;
  isHeaderHidden : bool;
}.

(** [new HeaderScrollHandler()] on a page whose header has the inline
    style [style]. *)
Definition new (style : Style) : t :=
  {| header := style; lastScrollTop := 0%Qc; isHeaderHidden := false |}.

Definition updateHeaderBackground (scrollTop : Qc) (st : t) : t :=
  if bool_decide (Qc_of_Z CONFIG.SCROLL_THRESHOLD < scrollTop)%Qc then
    {| header := {| backgroundColor := "rgba(255, 255, 255, 0.98)";
                    backdropFilter := "blur(15px)";
                    transform := transform (header st) |};
       lastScrollTop := lastScrollTop st; isHeaderHidden := isHeaderHidden st |}
  else
    {| header := {| backgroundColor := "rgba(255, 255, 255, 0.95)";
                    backdropFilter := "blur(10px)";
                    transform := transform (header st) |};
       lastScrollTop := lastScrollTop st; isHeaderHidden := isHeaderHidden st |}.

Definition hideHeader (st : t) : t :=
  {| header := {| backgroundColor := backgroundColor (header st);
                  backdropFilter := backdropFilter (header st);
                  transform := "translateY(-100%)" |};
     lastScrollTop := lastScrollTop st; isHeaderHidden := true |}.

Definition showHeader (st : t) : t :=
  {| header := {| backgroundColor := backgroundColor (header st);
                  backdropFilter := backdropFilter (header st);
                  transform := "translateY(0)" |};
     lastScrollTop := lastScrollTop st; isHeaderHidden := false |}.

(** [innerWidth] is [window.innerWidth] at the time of the call. *)
Definition updateHeaderVisibility (innerWidth : Z) (scrollTop : Qc) (st : t) : t :=
  if (1024 <? innerWidth)%Z then st
  else
    let isScrollingDown := bool_decide (lastScrollTop st < scrollTop)%Qc in
    let shouldHideHeader :=
      isScrollingDown
      && bool_decide (Qc_of_Z CONFIG.HEADER_HIDE_THRESHOLD < scrollTop)%Qc in
    if shouldHideHeader && negb (isHeaderHidden st) then hideHeader st
    else if negb isScrollingDown && isHeaderHidden st then showHeader st
    else st.

(** [handleScroll()] when the window is [innerWidth] wide and the page is
    scrolled to [scrollTop]. *)
Definition handleScroll (innerWidth : Z) (scrollTop : Qc) (st : t) : t :=
  let st1 := updateHeaderBackground scrollTop st in
  let st2 := updateHeaderVisibility innerWidth scrollTop st1 in
  {| header := header st2; lastScrollTop := scrollTop;
     isHeaderHidden := isHeaderHidden st2 |}.

(** The handler after the given calls of [handleScroll], oldest first. *)
Definition run (scrolls : list (Z * Qc)) (st : t) : t :=
  foldl (λ st '(innerWidth, scrollTop), handleScroll innerWidth scrollTop st)
        st scrolls.

(** What holds while the window never was wider than 1024 px: the flag
    and the style agree, and a hidden header means that the last scroll
    position lies below the threshold. *)
Definition inv (st : t) : Prop :=
  (isHeaderHidden st = true ↔ transform (header st) = "translateY(-100%)") ∧
  (isHeaderHidden st = true →
     (Qc_of_Z CONFIG.HEADER_HIDE_THRESHOLD < lastScrollTop st)%Qc).

End HeaderScroll.

(** ** MobileNavigation

    The toggle button, the list of links with its focusable elements, the
    three lines of the toggle icon and the scroll lock on the body. Each
    opening of the menu registers a new [keydown] listener that keeps the
    Tab key inside the menu; [tabTraps] counts the listeners of this kind
    that are registered on the document. *)

Module MobileNav.

Record Line := {
  line_transform : string;
  line_opacity : string;
}.

Inductive Focus :=
| OnToggle                        (* the toggle button *)
| OnLink (index : nat).           (* a focusable element of the menu *)

Record t := {
  isOpen : bool;
  active : bool;                  (* the list has class [active] *)
  aria_expanded : option string;  (* attribute of the toggle button *)
  overflow : string;              (* [document.body.style.overflow] *)
  lines : list Line;              (* [.nav-toggle-line] elements of the button *)
  focusable : nat;                (* number of focusable elements in the list *)
  activeElement : option Focus;   (* the focused element, when it is one of these *)
  tabTraps : nat;
}.

Definition animateToggleIcon (open : bool) (st : t) : t :=
  {| isOpen := isOpen st; active := active st; aria_expanded := aria_expanded st;
     overflow := overflow st;
     lines :=
       imap (λ index line,
         if open then
           {| line_transform :=
                if decide (index = 0) then "rotate(45deg) translate(5px, 5px)"
                else if decide (index = 2) then "rotate(-45deg) translate(7px, -6px)"
                else line_transform line;
              line_opacity :=
                if decide (index = 1) then "0" else line_opacity line |}
         else {| line_transform := "none"; line_opacity := "1" |}) (lines st);
     focusable := focusable st; activeElement := activeElement st;
     tabTraps := tabTraps st |}.

Definition trapFocus (st : t) : t :=
  if decide (focusable st = 0) then st
  else
    {| isOpen := isOpen st; active := active st; aria_expanded := aria_expanded st;
       overflow := overflow st; lines := lines st; focusable := focusable st;
       activeElement := Some (OnLink 0);
       tabTraps := S (tabTraps st) |}.

Definition open (st : t) : t :=
  let st1 :=
    animateToggleIcon true
      {| isOpen := true; active := true; aria_expanded := Some "true";
         overflow := overflow st; lines := lines st; focusable := focusable st;
         activeElement := activeElement st; tabTraps := tabTraps st |} in
  let st2 := trapFocus st1 in
  {| isOpen := isOpen st2; active := active st2; aria_expanded := aria_expanded st2;
     overflow := "hidden"; lines := lines st2; focusable := focusable st2;
     activeElement := activeElement st2; tabTraps := tabTraps st2 |}.

Definition close (st : t) : t :=
  let st1 :=
    animateToggleIcon false
      {| isOpen := false; active := false; aria_expanded := Some "false";
         overflow := overflow st; lines := lines st; focusable := focusable st;
         activeElement := activeElement st; tabTraps := tabTraps st |} in
  {| isOpen := isOpen st1; active := active st1; aria_expanded := aria_expanded st1;
     overflow := ""; lines := lines st1; focusable := focusable st1;
     activeElement := activeElement st1; tabTraps := tabTraps st1 |}.

Definition toggle (st : t) : t :=
  if isOpen st then close st else open st.

(** The events the listeners of [bindEvents] and [trapFocus] react to. *)
Inductive event :=
| ClickToggle                     (* a click on the toggle button *)
| ClickLink                       (* a click on a link of the menu that is no button *)
| ClickOutside                    (* a click outside the button and the menu *)
| KeyEscape                       (* the Escape key *)
| Resize (innerWidth : Z).        (* the debounced [resize] handler runs *)

Definition step (e : event) (st : t) : t :=
  match e with
  | ClickToggle => toggle st
  | ClickLink => close st
  | ClickOutside => if isOpen st then close st else st
  | KeyEscape =>
      let st1 :=
        if isOpen st then
          let st' := close st in
          {| isOpen := isOpen st'; active := active st';
             aria_expanded := aria_expanded st'; overflow := overflow st';
             lines := lines st'; focusable := focusable st';
             activeElement := Some OnToggle; tabTraps := tabTraps st' |}
        else st in
      (* every listener added by [trapFocus] removes its Tab handler *)
      {| isOpen := isOpen st1; active := active st1;
         aria_expanded := aria_expanded st1; overflow := overflow st1;
         lines := lines st1; focusable := focusable st1;
         activeElement := activeElement st1; tabTraps := 0 |}
  | Resize innerWidth =>
      if (768 <? innerWidth)%Z && isOpen st then close st else st
  end.

Definition run (es : list event) (st : t) : t := foldl (λ st e, step e st) st es.

(** [new MobileNavigation()] on a page whose menu is in the state
    [page] of the markup: the flag starts cleared and no Tab handler is
    registered. *)
Definition new (page : t) : t :=
  {| isOpen := false; active := active page; aria_expanded := aria_expanded page;
     overflow := overflow page; lines := lines page; focusable := focusable page;
     activeElement := activeElement page; tabTraps := 0 |}.

(** The flag, the class of the list, the attribute of the button and the
    scroll lock say the same. *)
Definition agrees (st : t) : Prop :=
  active st = isOpen st ∧
  (aria_expanded st = Some "true" ↔ isOpen st = true) ∧
  (overflow st = "hidden" ↔ isOpen st = true).

End MobileNav.

(** ** AnalyticsHandler: events and scroll depth *)

Module Analytics.

(** A value of an event property. *)
Inductive Value :=
| VNum (z : Z)
| VStr (s : string).

Record Event := {
  name : string;
  properties : list (string * Value);
}.

(** What the handler reads from the browser when it tracks an event. *)
Record Env := {
  innerWidth : Z;
  innerHeight : Z;
  screen_width : Z;
  screen_height : Z;
  href : string;
  userAgent : string;
  date_now : Z;
}.

Record t := {
  events : list Event;                 (* [this.events], oldest first *)
  trackedMilestones : gset Z;
}.

(** [new AnalyticsHandler()] *)
Definition new : t := {| events := []; trackedMilestones := ∅ |}.

(** [trackEvent(eventName, properties)], for properties that name none of
    the four keys it adds. *)
Definition trackEvent (env : Env) (eventName : string)
    (props : list (string * Value)) (st : t) : t :=
  let event :=
    {| name := eventName;
       properties :=
         props ++
         [("page_url", VStr (href env));
          ("user_agent", VStr (userAgent env));
          ("screen_resolution",
           VStr (pretty (screen_width env) +:+ "x" +:+ pretty (screen_height env)));
          ("viewport_size",
           VStr (pretty (innerWidth env) +:+ "x" +:+ pretty (innerHeight env)))] |} in
  {| events := events st ++ [event]; trackedMilestones := trackedMilestones st |}.

(** The value of [Math.round(...)]: an integer, or what a division by
    zero leaves. *)
Inductive Rounded :=
| NaN
| NegInfinity
| Integer (z : Z)
| Infinity.

(** [scrollPercent >= milestone] *)
Definition ge (scrollPercent : Rounded) (milestone : Z) : bool :=
  match scrollPercent with
  | Integer z => (milestone <=? z)%Z
  | Infinity => true
  | NaN | NegInfinity => false
  end.

Definition scrollMilestones : list Z := [25; 50; 75; 100]%Z.

(** [trackScrollDepth], given the rounded scroll percentage. *)
Definition trackScrollDepth (env : Env) (scrollPercent : Rounded) (st : t) : t :=
  foldl (λ st milestone,
    if ge scrollPercent milestone
       && negb (bool_decide (milestone ∈ trackedMilestones st))
    then
      trackEvent env "Scroll_Depth"
        [("percentage", VNum milestone);
         ("device_type", VStr (getDeviceType (innerWidth env)));
         ("timestamp", VNum (date_now env))]
        {| events := events st;
           trackedMilestones := {[milestone]} ∪ trackedMilestones st |}
    else st) st scrollMilestones.

(** The handler after the given calls of [trackScrollDepth]. *)
Definition run (calls : list (Env * Rounded)) (st : t) : t :=
  foldl (λ st '(env, p), trackScrollDepth env p st) st calls.

(** The milestone an event reports. *)
Definition percentage (e : Event) : option Z :=
  match properties e with
  | ("percentage", VNum z) :: _ => Some z
  | _ => None
  end.

(** Every event reports a milestone, no milestone is reported twice, and
    the set holds the reported milestones. *)
Definition inv (st : t) : Prop :=
  ∃ ms, percentage <$> events st = Some <$> ms ∧
        NoDup ms ∧ ms ⊆ scrollMilestones ∧
        trackedMilestones st = list_to_set ms.

End Analytics.

(** * Properties *)

(** ** Strings *)

Section js_facts.
Implicit Types s : Js.str.

Lemma is_empty_nil s : Js.is_empty s = true ↔ s = [].
Proof. destruct s; simpl; split; congruence. Qed.

Lemma is_empty_rev s : Js.is_empty (rev s) = Js.is_empty s.
Proof.
  destruct s as [|c r]; [done|]. simpl.
  destruct (rev r ++ [c]) eqn:E; [|done].
  by apply app_eq_nil in E as [_ ?].
Qed.

Lemma is_empty_trimStart s : Js.is_empty (Js.trimStart s) = forallb Js.is_space s.
Proof.
  induction s as [|c r IH]; [done|]. simpl.
  destruct (Js.is_space c); [apply IH | done].
Qed.

Lemma forallb_trimStart s :
  forallb Js.is_space (Js.trimStart s) = forallb Js.is_space s.
Proof.
  induction s as [|c r IH]; [done|]. simpl.
  destruct (Js.is_space c) eqn:E; [apply IH|]. simpl. by rewrite E.
Qed.

Lemma forallb_rev (p : N → bool) s : forallb p (rev s) = forallb p s.
Proof.
  induction s as [|c r IH]; [done|]. simpl.
  rewrite forallb_app, IH. simpl. rewrite andb_true_r. apply andb_comm.
Qed.

(** [s.trim() === ""] holds exactly for the strings made of white space. *)
Lemma trim_empty s : Js.is_empty (Js.trim s) = forallb Js.is_space s.
Proof.
  unfold Js.trim, Js.trimEnd.
  by rewrite is_empty_rev, is_empty_trimStart, forallb_rev, forallb_trimStart.
Qed.

Lemma length_repeat_lit_x n : Js.length (Js.repeat (Js.lit "x") n) = N.of_nat n.
Proof.
  unfold Js.length, Js.repeat. f_equal.
  induction n as [|n IH]; [done|]. simpl. by rewrite IH.
Qed.
End js_facts.

(** ** Patterns: [test] decides the language *)

Module RegexFacts.
Import Regex.

Lemma nullable_lang r : nullable r = true ↔ lang r [].
Proof.
  induction r as [| |p|r1 IH1 r2 IH2|r1 IH1 r2 IH2|r IH]; simpl.
  - split; [done | inversion 1].
  - split; [constructor | done].
  - split; [done | inversion 1].
  - rewrite andb_true_iff, IH1, IH2. split.
    + intros [H1 H2]. apply (lang_cat _ _ [] []); done.
    + inversion 1 as [| |? ? s1 s2 H1 H2 Hr Hs| | | |]; subst.
      apply app_eq_nil in Hs as [-> ->]. done.
  - rewrite orb_true_iff, IH1, IH2. split.
    + intros [H|H]; [by apply lang_alt_l | by apply lang_alt_r].
    + inversion 1; subst; auto.
  - split; [constructor | done].
Qed.

(** A non-empty word of [r*] starts with a non-empty word of [r]. *)
Lemma lang_star_cons_inv r c s :
  lang (Star r) (c :: s) →
  ∃ s1 s2, s = s1 ++ s2 ∧ lang r (c :: s1) ∧ lang (Star r) s2.
Proof.
  intros H. remember (Star r) as r' eqn:Er. remember (c :: s) as w eqn:Ew.
  revert Er Ew.
  induction H as [| | | | | |r0 s1 s2 H1 _ H2 IH2]; intros Er Ew; try discriminate.
  injection Er as ->.
  destruct s1 as [|c1 s1]; simpl in Ew.
  - by apply IH2.
  - injection Ew as -> <-. by exists s1, s2.
Qed.

Lemma deriv_lang c r s : lang (deriv c r) s ↔ lang r (c :: s).
Proof.
  revert s.
  induction r as [| |p|r1 IH1 r2 IH2|r1 IH1 r2 IH2|r IH]; intros s; simpl.
  - split; inversion 1.
  - split; inversion 1.
  - destruct (p c) eqn:Ep; split.
    + inversion 1; subst. by constructor.
    + inversion 1; subst. constructor.
    + inversion 1.
    + inversion 1; subst. congruence.
  - assert (Hcat : lang (Cat (deriv c r1) r2) s → lang (Cat r1 r2) (c :: s)).
    { inversion 1 as [| |? ? s1 s2 H1 H2| | | |]; subst.
      apply IH1 in H1. by apply (lang_cat _ _ (c :: s1) s2). }
    assert (Hinv : lang (Cat r1 r2) (c :: s) →
              lang (Cat (deriv c r1) r2) s ∨ (lang r1 [] ∧ lang r2 (c :: s))).
    { inversion 1 as [| |? ? s1 s2 H1 H2 Hr Hs| | | |]; subst.
      destruct s1 as [|c1 s1]; simpl in Hs.
      - right. by subst.
      - injection Hs as -> <-. left. constructor; [by apply IH1 | done]. }
    destruct (nullable r1) eqn:En; split.
    + inversion 1; subst; [by apply Hcat|].
      apply (lang_cat _ _ [] (c :: s)); [by apply nullable_lang | by apply IH2].
    + intros [H|[_ H]]%Hinv; [by apply lang_alt_l|].
      apply lang_alt_r. by apply IH2.
    + apply Hcat.
    + intros [H|[H _]]%Hinv; [done|].
      apply nullable_lang in H. congruence.
  - split.
    + inversion 1; subst; [apply lang_alt_l; by apply IH1 | apply lang_alt_r; by apply IH2].
    + inversion 1; subst; [apply lang_alt_l; by apply IH1 | apply lang_alt_r; by apply IH2].
  - split.
    + inversion 1 as [| |? ? s1 s2 H1 H2| | | |]; subst.
      apply IH in H1. by apply (lang_star_cons _ (c :: s1) s2).
    + intros (s1 & s2 & -> & H1 & H2)%lang_star_cons_inv.
      constructor; [by apply IH | done].
Qed.

Theorem test_lang r s : test r s = true ↔ lang r s.
Proof.
  revert r. induction s as [|c s IH]; intros r; simpl.
  - apply nullable_lang.
  - rewrite IH. apply deriv_lang.
Qed.

Lemma lang_class_inv p s : lang (Class p) s → ∃ c, s = [c] ∧ p c = true.
Proof. inversion 1; subst; eauto. Qed.

Lemma lang_cat_inv r1 r2 s :
  lang (Cat r1 r2) s → ∃ s1 s2, s = s1 ++ s2 ∧ lang r1 s1 ∧ lang r2 s2.
Proof. inversion 1; subst; eauto. Qed.

Lemma lang_star_class p s : lang (Star (Class p)) s → forallb p s = true.
Proof.
  intros H. remember (Star (Class p)) as r eqn:Er. revert Er.
  induction H as [| | | | | |r0 s1 s2 H1 _ H2 IH2]; intros Er;
    try discriminate; [done|].
  injection Er as ->. apply lang_class_inv in H1 as (c & -> & Hc).
  simpl. rewrite Hc. by apply IH2.
Qed.

Lemma lang_plus_class p s :
  lang (Plus (Class p)) s → s ≠ [] ∧ forallb p s = true.
Proof.
  intros (s1 & s2 & -> & (c & -> & Hc)%lang_class_inv & H2%lang_star_class)%lang_cat_inv.
  simpl. by rewrite Hc, H2.
Qed.
End RegexFacts.
(** ** The email pattern against the specification's shape *)

Lemma at_then_dot_spec s :
  at_then_dot s = true ↔ ∃ l r, s = l ++ 64%N :: r ∧ 46%N ∈ r.
Proof.
  induction s as [|c s IH]; simpl.
  - split; [done|]. intros ([|] & ? & ? & _); done.
  - destruct (N.eqb_spec c 64) as [->|Hc].
    + rewrite existsb_exists. split.
      * intros (x & Hx & ->%N.eqb_eq). exists [], s. split; [done|]. by apply list_elem_of_In.
      * intros (l & r & E & Hr). 
        destruct l as [|c l]; simpl in E.
        -- injection E as <-. exists 46%N. split; [by apply list_elem_of_In | done].
        -- injection E as _ ->. exists 46%N. split; [|done]. apply in_app_iff. right. right. by apply list_elem_of_In.
    + rewrite IH. split.
      * intros (l & r & -> & Hr). by exists (c :: l), r.
      * intros (l & r & E & Hr). destruct l as [|c' l]; simpl in E.
        -- congruence.
        -- injection E as _ ->. by exists l, r.
Qed.

Lemma at_then_dot_app l r :
  forallb not_space_at l = true → at_then_dot (l ++ 64%N :: r) = existsb (N.eqb 46) r.
Proof.
  induction l as [|c l IH]; simpl; [done|].
  intros [Hc Hl]%andb_true_iff. rewrite IH by done.
  unfold not_space_at in Hc. destruct (c =? 64)%N; [|done].
  by rewrite orb_true_r in Hc.
Qed.

Lemma not_space_at_not_space s :
  forallb not_space_at s = true → forallb (λ c, negb (Js.is_space c)) s = true.
Proof.
  induction s as [|c s IH]; simpl; [done|].
  intros [Hc Hl]%andb_true_iff. rewrite IH by done.
  unfold not_space_at in Hc. destruct (Js.is_space c); done.
Qed.

(** Every string [EMAIL_PATTERN] accepts has the shape the specification
    describes. *)
Lemma email_regex_shape s :
  Regex.test (EMAIL_PATTERN CONTACT_CONFIG) s = true → spec_email_shape s = true.
Proof.
  intros H%RegexFacts.test_lang. simpl in H. unfold email_regex in H.
  apply RegexFacts.lang_cat_inv in H as (l & s1 & -> & [_ Hl]%RegexFacts.lang_plus_class & H).
  apply RegexFacts.lang_cat_inv in H as (a & s2 & -> & (c & -> & <-%N.eqb_eq)%RegexFacts.lang_class_inv & H).
  apply RegexFacts.lang_cat_inv in H as (d & s3 & -> & [_ Hd]%RegexFacts.lang_plus_class & H).
  apply RegexFacts.lang_cat_inv in H as (a & t & -> & (c & -> & <-%N.eqb_eq)%RegexFacts.lang_class_inv & [_ Ht]%RegexFacts.lang_plus_class).
  unfold spec_email_shape. simpl. rewrite at_then_dot_app by done.
  rewrite existsb_app. simpl. rewrite orb_true_r. simpl.
  rewrite !forallb_app. simpl. rewrite forallb_app. simpl.
  by rewrite !not_space_at_not_space.
Qed.

(** ** The validator *)

Section validator_facts.
Implicit Types (field : FieldId) (st : Page) (s : Js.str).

Lemma validateRequired_eq field s fieldName st :
  validateRequired field (Some s) fieldName st =
  if forallb Js.is_space s
  then (false, exec (addError field (fieldName +:+ " is required")) st)
  else (true, exec (removeError field) st).
Proof.
  unfold validateRequired. simpl. rewrite trim_empty.
  destruct s as [|c r]; [done|]. simpl. by destruct (_ && _).
Qed.

Lemma validateRequired_null field fieldName st :
  validateRequired field None fieldName st =
  (false, exec (addError field (fieldName +:+ " is required")) st).
Proof. done. Qed.

Lemma validateEmail_eq field s st :
  s ≠ [] →
  validateEmail field (Some s) st =
  if Regex.test email_regex s
  then (true, exec (removeError field) st)
  else (false, exec (addError field "Please enter a valid email address") st).
Proof.
  intros Hs. unfold validateEmail. destruct s as [|c r]; [done|]. simpl. 
  by destruct (Regex.test _ _).
Qed.

Lemma validateMessage_eq field s st :
  s ≠ [] →
  validateMessage field (Some s) st =
  if (Js.length s <? 10)%N
  then (false, exec (addError field "Message must be at least 10 characters") st)
  else if (1000 <? Js.length s)%N
  then (false, exec (addError field "Message must be less than 1000 characters") st)
  else (true, exec (removeError field) st).
Proof.
  intros Hs. unfold validateMessage. destruct s as [|c r]; [done|]. 
  cbn [Js.falsy Js.is_empty default from_option id MIN_MESSAGE_LENGTH MAX_MESSAGE_LENGTH CONTACT_CONFIG].
  destruct (_ <? 10)%N; [done|]. by destruct (1000 <? _)%N.
Qed.

Lemma errors_addError field msg st :
  errors (validator (exec (addError field msg) st)) =
  <[field_name field := msg]> (errors (validator st)).
Proof. done. Qed.

Lemma errors_removeError field st :
  errors (validator (exec (removeError field) st)) =
  delete (field_name field) (errors (validator st)).
Proof. done. Qed.
End validator_facts.


Section mark_facts.
Implicit Types (x : Field) (m : string).



End mark_facts.


Section mark_reading.
Implicit Types (x : Field) (m : string).

Lemma marked_success_intro x : marked_success (mark_success x).
Proof.
  unfold marked_success, mark_success; simpl. repeat split.
  intros e. destruct (errorElement x); intros [= <-]; done.
Qed.

Lemma marked_error_intro m x : marked_error m (mark_error m x).
Proof.
  unfold marked_error, mark_error; simpl. repeat split.
  intros e. destruct (errorElement x); intros [= <-]; done.
Qed.

Lemma unmarked_intro x : unmarked (clear_marks x).
Proof.
  unfold unmarked, clear_marks; simpl. repeat split.
  intros e. destruct (errorElement x); intros [= <-]; done.
Qed.
End mark_reading.

(** C10. Called directly with the empty string, [validateEmail] and
    [validateMessage] return false through their early return and leave
    the page as it was: no error is recorded, [isValid] and the marks of
    the control are untouched. *)
Theorem empty_value_fails_silently (field : FieldId) (st : Page) :
  validateEmail field (Some []) st = (false, st) ∧
  validateMessage field (Some []) st = (false, st).
Proof. split; reflexivity. Qed.

(** C5. A message whose length is between 10 and 1000 passes the length
    check, the two bounds included; a message of 9 characters fails with
    the too-short text and one of 1001 characters with the too-long
    text. *)
Theorem validateMessage_length_bounds (field : FieldId) (m : Js.str) (st : Page) :
  let r := validateMessage field (Some m) st in
  ((10 ≤ Js.length m ≤ 1000)%N → r.1 = true) ∧
  (Js.length m = 9%N →
     r.1 = false ∧
     errors (validator r.2) !! field_name field
     = Some "Message must be at least 10 characters") ∧
  (Js.length m = 1001%N →
     r.1 = false ∧
     errors (validator r.2) !! field_name field
     = Some "Message must be less than 1000 characters") ∧
  (validateMessage field (Some (Js.repeat (Js.lit "x") 10)) st).1 = true ∧
  (validateMessage field (Some (Js.repeat (Js.lit "x") 1000)) st).1 = true.
Proof.
  assert (Hne : ∀ s : Js.str, (0 < Js.length s)%N → s ≠ []).
  { intros s Hs ->. unfold Js.length in Hs. simpl in Hs. lia. }
  assert (Hpass : ∀ s : Js.str, (10 ≤ Js.length s ≤ 1000)%N →
            (validateMessage field (Some s) st).1 = true).
  { intros s Hs. rewrite validateMessage_eq by (apply Hne; lia).
    destruct (N.ltb_spec (Js.length s) 10); [lia|].
    destruct (N.ltb_spec 1000 (Js.length s)); [lia|done]. }
  cbv zeta. split; [apply Hpass|]. split; [|split; [|split]].
  - intros Hm. rewrite validateMessage_eq by (apply Hne; lia). rewrite Hm.
    cbn [N.ltb N.compare Pos.compare Pos.compare_cont fst snd].
    split; [done|]. rewrite errors_addError. apply lookup_insert_eq.
  - intros Hm. rewrite validateMessage_eq by (apply Hne; lia). rewrite Hm.
    change (1001 <? 10)%N with false. change (1000 <? 1001)%N with true.
    cbn [fst snd].
    split; [done|]. rewrite errors_addError. apply lookup_insert_eq.
  - apply Hpass. rewrite length_repeat_lit_x. lia.
  - apply Hpass. rewrite length_repeat_lit_x. lia.
Qed.

(** C4, as the code has it. For every non-empty string that does not have
    the email shape of the specification, [validateEmail] returns false
    and records the email-format text; [validateRequired] on the same
    string returns true, leaving the field without an entry, unless the
    string is made of white space only, in which case it returns false
    and records the required-field text. *)
Theorem validateEmail_rejects_unshaped
    (field : FieldId) (s : Js.str) (fieldName : string) (st : Page) :
  s ≠ [] →
  spec_email_shape s = false →
  (validateEmail field (Some s) st).1 = false ∧
  errors (validator (validateEmail field (Some s) st).2) !! field_name field
  = Some "Please enter a valid email address" ∧
  (validateRequired field (Some s) fieldName st).1 = negb (forallb Js.is_space s) ∧
  errors (validator (validateRequired field (Some s) fieldName st).2) !! field_name field
  = if forallb Js.is_space s then Some (fieldName +:+ " is required") else None.
Proof.
  intros Hs Hshape. rewrite validateEmail_eq by done.
  destruct (Regex.test email_regex s) eqn:Ht.
  { apply (email_regex_shape s) in Ht. congruence. }
  cbn [fst snd]. split; [done|]. split.
  - rewrite errors_addError. apply lookup_insert_eq.
  - rewrite validateRequired_eq. destruct (forallb _ _); cbn [fst snd negb].
    + split; [done|]. rewrite errors_addError. apply lookup_insert_eq.
    + split; [done|]. rewrite errors_removeError. apply lookup_delete_eq.
Qed.

Lemma validateEmail_rejects_unshaped_witness :
  Js.lit "a.b" ≠ [] ∧ spec_email_shape (Js.lit "a.b") = false ∧
  (validateEmail F_email (Some (Js.lit "a.b")) valid_page).1 = false ∧
  errors (validator (validateEmail F_email (Some (Js.lit "a.b")) valid_page).2)
    !! field_name F_email
  = Some "Please enter a valid email address" ∧
  (validateRequired F_email (Some (Js.lit "a.b")) "Email" valid_page).1
  = negb (forallb Js.is_space (Js.lit "a.b")) ∧
  errors (validator (validateRequired F_email (Some (Js.lit "a.b")) "Email" valid_page).2)
    !! field_name F_email
  = if forallb Js.is_space (Js.lit "a.b") then Some ("Email" +:+ " is required")
    else None.
Proof.
  split; [discriminate|]. split; [reflexivity|].
  apply (validateEmail_rejects_unshaped F_email (Js.lit "a.b") "Email" valid_page).
  - discriminate.
  - reflexivity.
Defined.

(** C4 as stated fails on a single space: the string is not empty and is
    not email-shaped, yet [validateRequired] rejects it. *)
Lemma required_rejects_single_space :
  Js.lit " " ≠ [] ∧
  spec_email_shape (Js.lit " ") = false ∧
  (validateRequired F_email (Some (Js.lit " ")) "Email" valid_page).1 = false.
Proof. split; [discriminate|]. split; reflexivity. Qed.

(** C2. On [{name: "", email: "a@b.com", subject: "Hi", message:
    "short"}], whatever the page was before, [validateForm] returns false,
    the error set is exactly the required text for [name] and the
    too-short text for [message], and the [email] and [subject] controls
    are marked as passed. *)
Theorem validateForm_invalid_scenario (st : Page) :
  let r := validateForm invalid_values st in
  r.1 = false ∧
  errors (validator r.2)
  = {[ "name" := "Name is required";
       "message" := "Message must be at least 10 characters" ]} ∧
  marked_success (f_email (form r.2)) ∧
  marked_success (f_subject (form r.2)).
Proof.
  destruct st as [[x1 x2 x3 x4] ? ? ? ? ? ? ? ? ?]. cbv zeta.
  split; [vm_compute; reflexivity|]. split; [vm_compute; reflexivity|].
  split.
  - apply (marked_success_intro (mark_success x2)).
  - apply (marked_success_intro x3).
Qed.

(** C3. When the email value is empty or made of white space only,
    [validateForm] fails and the only error recorded for [email], in the
    error set and inline, is the required text: the format rule does not
    run after a failed required check. *)
Theorem validateForm_blank_email (formData : FormData) (v : Js.str) (st : Page) :
  fd_get "email" formData = Some v →
  forallb Js.is_space v = true →
  let r := validateForm formData st in
  r.1 = false ∧
  errors (validator r.2) !! "email" = Some "Email is required" ∧
  marked_error "Email is required" (f_email (form r.2)) ∧
  ∀ s, and_then (validateRequired F_email (Some v) "Email")
                (validateEmail F_email (Some v)) s
       = validateRequired F_email (Some v) "Email" s.
Proof.
  intros Hv Hblank. cbv zeta.
  assert (Hreq : ∀ s, validateRequired F_email (Some v) "Email" s
                      = (false, exec (addError F_email "Email is required") s)).
  { intros s. by rewrite validateRequired_eq, Hblank. }
  assert (Hand : ∀ s, and_then (validateRequired F_email (Some v) "Email")
                               (validateEmail F_email (Some v)) s
                      = validateRequired F_email (Some v) "Email" s).
  { intros s. unfold and_then, bind. by rewrite Hreq. }
  assert (Hc : Js.falsy (Some v) || Js.is_empty (Js.trim (default [] (Some v))) = true).
  { simpl. rewrite trim_empty, Hblank. apply orb_true_r. }
  assert (Hsplit : ∀ P Q R S : Prop, P ∧ Q ∧ R → S → P ∧ Q ∧ R ∧ S) by tauto.
  apply Hsplit; [|exact Hand]. clear Hsplit Hand Hreq.
  unfold validateForm. rewrite Hv.
  generalize (fd_get "name" formData) (fd_get "subject" formData)
             (fd_get "message" formData).
  intros vn vs vm.
  unfold and_then, validateRequired, validateMessage. rewrite Hc.
  cbv beta iota zeta delta [bind ret modify gets addError removeError fst snd].
  destruct st as [[x1 x2 x3 x4] ? ? ? ? ? ? ? ? ?].
  split_ifs; page_simpl;
    (split; [reflexivity|]); (split; [vm_compute; reflexivity|]);
    apply marked_error_intro.
Qed.

Lemma validateForm_blank_email_witness :
  fd_get "email" [("name", Js.lit "Jo"); ("email", Js.lit "  ")] = Some (Js.lit "  ") ∧
  forallb Js.is_space (Js.lit "  ") = true ∧
  errors (validator
            (validateForm [("name", Js.lit "Jo"); ("email", Js.lit "  ")] valid_page).2)
    !! "email" = Some "Email is required".
Proof.
  split; [reflexivity|]. split; [reflexivity|].
  apply (validateForm_blank_email
           [("name", Js.lit "Jo"); ("email", Js.lit "  ")] (Js.lit "  ") valid_page);
    reflexivity.
Defined.




(** ** The handler *)

Section handler_facts.
Implicit Types (s : Page) (f : FieldId) (es : list Event).

Lemma validateForm_frame formData s :
  same_outside_validation (validateForm formData s).2 s.
Proof.
  method_unfold.
  generalize (fd_get "name" formData) (fd_get "email" formData)
             (fd_get "subject" formData) (fd_get "message" formData).
  intros vn ve vs vm.
  destruct s as [[x1 x2 x3 x4] ? ? ? ? ? ? ? ? ?].
  split_ifs; (split; [intros []; by page_simpl | by page_simpl]).
Qed.

Lemma validateField_frame f s :
  same_outside_validation (exec (validateField f) s) s.
Proof.
  destruct s as [[x1 x2 x3 x4] ? ? ? ? ? ? ? ? ?].
  destruct f; method_unfold; page_simpl;
    split_ifs; (split; [intros []; by page_simpl | by page_simpl]).
Qed.

(** A call of [handleSubmit] during a submission does nothing. *)
Lemma handleSubmit_reentrant s :
  isSubmitting s = true → handleSubmit s = (tt, s).
Proof. intros H. unfold handleSubmit, bind, gets, ret. by rewrite H. Qed.

Lemma submitting_inv_new fm button :
  submitting_inv (ContactFormHandler_new fm button).
Proof. done. Qed.

Lemma submitting_inv_validation s s' :
  same_outside_validation s' s → submitting_inv s → submitting_inv s'.
Proof.
  intros (Hc & _ & _ & _ & _ & Hi & Hp & _) Hs. unfold submitting_inv in *.
  rewrite Hi, Hp. destruct (isSubmitting s); [|done].
  destruct Hs as [? Hd]. split; [done|]. intros f.
  destruct (Hc f) as (_ & _ & ->). apply Hd.
Qed.

Lemma handleSubmit_inv s : submitting_inv s → submitting_inv (exec handleSubmit s).
Proof.
  intros Hs. destruct (isSubmitting s) eqn:Hi.
  { unfold exec. by rewrite handleSubmit_reentrant. }
  unfold exec, handleSubmit, bind, gets. rewrite Hi.
  pose proof (validateForm_frame (FormData_of (form s)) s) as Hf.
  destruct (validateForm (FormData_of (form s)) s) as [ok s1].
  simpl in Hf. destruct Hf as (_ & _ & _ & _ & _ & Hi1 & Hp1 & _).
  unfold submitting_inv in Hs. rewrite Hi in Hs, Hi1. rewrite Hs in Hp1.
  destruct ok; simpl.
  - method_unfold. unfold submitting_inv. page_simpl. rewrite Hp1.
    split; [by eexists|]. by intros [].
  - method_unfold. unfold submitting_inv.
    destruct (filter _ _) as [|f0 ?]; page_simpl.
    + by rewrite Hi1.
    + destruct (disabled _); page_simpl; by rewrite Hi1.
Qed.

Lemma resume_idle o s :
  let s' := exec (handleSubmit_resume o) s in
  isSubmitting s' = false ∧ pending s' = pending s ∧
  ∀ f, disabled (get_field f (form s')) = false.
Proof.
  destruct s as [[x1 x2 x3 x4] ? ? ? ? ? ? ? ? ?].
  destruct o as [r|]; method_unfold; [destruct (success r)|]; page_simpl;
    try destruct (disabled x1); page_simpl; (split; [done|]); (split; [done|]);
    by intros [].
Qed.

Lemma step_inv e s : submitting_inv s → submitting_inv (step e s).
Proof.
  intros Hs. destruct e as [|o|f|f v| |ms]; simpl.
  - by apply handleSubmit_inv.
  - destruct (pending s) as [|p rest] eqn:Hp; [done|].
    assert (rest = []) as ->.
    { unfold submitting_inv in Hs. rewrite Hp in Hs.
      destruct (isSubmitting s); [|done]. by destruct Hs as [[? [= _ ->]] _]. }
    destruct (resume_idle o (with_pending (λ _, []) s)) as (Hi & Hq & _).
    unfold submitting_inv. by rewrite Hi, Hq.
  - eapply submitting_inv_validation; [apply validateField_frame | done].
  - unfold submitting_inv in *.
    destruct (disabled (get_field f (form s))) eqn:Hd; [done|].
    destruct (isSubmitting s) eqn:Hi.
    { destruct Hs as [_ Hall]. rewrite Hall in Hd. done. }
    destruct f; method_unfold; page_simpl; by rewrite Hi.
  - destruct (debounced s) as [f|]; [|done].
    eapply submitting_inv_validation; [apply validateField_frame|].
    unfold submitting_inv in *. by page_simpl.
  - unfold submitting_inv in *. by page_simpl.
Qed.

Lemma run_inv es s : submitting_inv s → submitting_inv (run es s).
Proof.
  revert s. induction es as [|e es IH]; intros s Hs; [done|].
  simpl. apply IH. by apply step_inv.
Qed.
End handler_facts.

(** C1. Whatever events the page has seen since the handler was
    constructed, at most one submit call is in flight, and while
    [isSubmitting] is set a further call of [handleSubmit] returns at once
    and changes nothing: no validation, no notification, no second submit
    call. *)
Theorem handleSubmit_single_flight
    (fm : Form) (button : option Button) (es : list Event) :
  let s := run es (ContactFormHandler_new fm button) in
  length (pending s) ≤ 1 ∧
  (isSubmitting s = true → length (pending s) = 1 ∧ handleSubmit s = (tt, s)) ∧
  (isSubmitting s = false → pending s = []).
Proof.
  cbv zeta.
  pose proof (run_inv es _ (submitting_inv_new fm button)) as Hs.
  unfold submitting_inv in Hs.
  destruct (isSubmitting (run es _)) eqn:Hi.
  - destruct Hs as [[p Hp] _]. rewrite Hp. simpl.
    split; [lia|]. split; [|done]. intros _. split; [done|].
    by apply handleSubmit_reentrant.
  - rewrite Hs. simpl. split; [lia|]. split; done.
Qed.

(** ** Outcomes of a submission *)

Example submit_starts_one_call :
  isSubmitting (run [Submit] valid_page) = true ∧
  length (pending (run [Submit] valid_page)) = 1 ∧
  run [Submit; Submit; Submit] valid_page = run [Submit] valid_page.
Proof. split; [|split]; vm_compute; reflexivity. Qed.

Section outcome_facts.
Implicit Types (s : Page) (f : FieldId) (o : Outcome).

(** [handleSuccess] runs before the controls are enabled again, so its
    call of [focus] finds the first control disabled and does nothing. *)
Lemma handleSuccess_keeps_focus s :
  disabled (get_field F_name (form s)) = true →
  activeElement (exec handleSuccess s) = activeElement s.
Proof.
  destruct s as [[x1 x2 x3 x4] ? ? ? ? ? ? ? ? ?]. simpl. intros Hd.
  method_unfold. page_simpl. unfold clear_marks. simpl. by rewrite Hd.
Qed.

Lemma settle_success_keeps_focus s p rest response :
  pending s = p :: rest → success response = true →
  disabled (get_field F_name (form s)) = true →
  activeElement (step (Settle (Resolved response)) s) = activeElement s.
Proof.
  destruct s as [[x1 x2 x3 x4] ? ? ? ? ? ? ? ? ?]. cbn [pending form get_field f_name].
  intros -> Hr Hd. cbn [step pending]. method_unfold. rewrite Hr. page_simpl.
  unfold clear_marks. cbn [disabled]. by rewrite Hd.
Qed.

Lemma step_elapse_commute o ms s :
  step (Settle o) (step (Elapse ms) s) = step (Elapse ms) (step (Settle o) s).
Proof.
  destruct s as [[x1 x2 x3 x4] ? ? ? ? ? ? [|p rest] ? ?]; [done|].
  destruct o as [r|]; simpl; method_unfold; [destruct (success r)|]; page_simpl;
    try destruct (disabled x1); reflexivity.
Qed.

(** Whenever the promise settles, the handler leaves the submitting state
    and shows one notification, whose type the outcome decides. *)
Lemma settle_notifies o s :
  pending s ≠ [] →
  isSubmitting (step (Settle o) s) = false ∧
  ∃ m, notifications (step (Settle o) s)
       = {| note_message := m;
            note_type := if is_failure o then error_t else success_t |}
         :: notifications s.
Proof.
  destruct s as [[x1 x2 x3 x4] sb cn ae nt vd isb [|p rest] db ck]; [done|].
  intros _. destruct o as [r|]; simpl; method_unfold;
    [destruct (success r)|]; page_simpl;
    try destruct (disabled x1); (split; [reflexivity|]); eexists; reflexivity.
Qed.

Lemma waiting_step e s :
  is_settle e = false → isSubmitting s = true →
  isSubmitting (step e s) = true ∧ pending (step e s) = pending s ∧
  notifications (step e s) = notifications s.
Proof.
  intros He Hi. destruct e as [|o|f|f v| |ms]; simpl; try done.
  - unfold exec. by rewrite handleSubmit_reentrant.
  - destruct (validateField_frame f s) as (_ & _ & _ & _ & -> & -> & -> & _). done.
  - destruct (disabled _); [done|]. by destruct f.
  - destruct (debounced s) as [f|]; [|done].
    by destruct (validateField_frame f (with_debounced None s))
      as (_ & _ & _ & _ & -> & -> & -> & _).
Qed.
End outcome_facts.

(** C7, evaluated on the scenario of the specification: the form holds
    valid values and the submit operation resolves with success. The
    success notification is shown, values and marks are cleared, the error
    set is empty, the counter is reset and the controls are enabled again;
    but no control has the focus, since [focus] was called on the first
    control while it was still disabled. *)
Theorem success_scenario_focus :
  let s := run [Submit; Elapse submitForm_delay; Settle submitForm_outcome] valid_page in
  head (notifications s)
  = Some {| note_message := SUCCESS (MESSAGES CONTACT_CONFIG); note_type := success_t |} ∧
  Forall (λ f, value (get_field f (form s)) = []) all_fields ∧
  Forall (λ f, unmarked (get_field f (form s))) all_fields ∧
  errors (validator s) = ∅ ∧
  counter s = Some {| counter_text := "0/1000 characters"; counter_color := "#6c757d" |} ∧
  Forall (λ f, disabled (get_field f (form s)) = false) all_fields ∧
  isSubmitting s = false ∧
  activeElement s = None ∧
  activeElement s ≠ Some F_name.
Proof.
  vm_compute. repeat split; try reflexivity; try discriminate.
  all: repeat constructor; try reflexivity; intros e [= <-]; reflexivity.
Qed.

(** C8. When the promise of a submit call in flight settles as a failure
    (rejected, or resolved without [success]), an error notification is
    shown, with the message of the response when it has one and a fixed
    text otherwise; the values of the controls are kept, the controls and
    the submit button are enabled again and [isSubmitting] is cleared. *)
Theorem failure_returns_to_idle
    (s : Page) (p : Pending) (rest : list Pending) (o : Outcome) :
  pending s = p :: rest →
  is_failure o = true →
  let s' := step (Settle o) s in
  notifications s'
  = {| note_message :=
         match o with
         | Rejected => NETWORK_ERROR (MESSAGES CONTACT_CONFIG)
         | Resolved response =>
             match message response with
             | Some m => if decide (m = "") then ERROR (MESSAGES CONTACT_CONFIG) else m
             | None => ERROR (MESSAGES CONTACT_CONFIG)
             end
         end;
       note_type := error_t |} :: notifications s ∧
  (∀ f, value (get_field f (form s')) = value (get_field f (form s))) ∧
  (∀ f, disabled (get_field f (form s')) = false) ∧
  (∀ b, submitButton s' = Some b →
        btn_disabled b = false ∧ btn_loading b = false ∧ btn_text b = "Send Message") ∧
  (submitButton s' = None ↔ submitButton s = None) ∧
  isSubmitting s' = false ∧
  pending s' = rest.
Proof.
  intros Hp Ho. cbv zeta. simpl. rewrite Hp.
  destruct s as [[x1 x2 x3 x4] btn ? ? ? ? ? ? ? ?].
  destruct o as [[ok m]|]; simpl in Ho.
  - destruct ok; [done|]. method_unfold. page_simpl. unfold Js.or_else. simpl.
    split.
    { destruct m as [[|c r]|]; try done. }
    split; [by intros []|]. split; [by intros []|].
    split; [destruct btn as [b0|]; [by intros b [= <-] | done]|].
    split; [by destruct btn as [b0|]|]. done.
  - method_unfold. page_simpl.
    split; [done|]. split; [by intros []|]. split; [by intros []|].
    split; [destruct btn as [b0|]; [by intros b [= <-] | done]|].
    split; [by destruct btn as [b0|]|]. done.
Qed.

Lemma failure_returns_to_idle_witness :
  pending (run [Submit] valid_page)
  = [{| sent := FormData_of valid_form; started := 0 |}] ∧
  is_failure Rejected = true ∧
  isSubmitting (step (Settle Rejected) (run [Submit] valid_page)) = false.
Proof.
  assert (Hp : pending (run [Submit] valid_page)
               = [{| sent := FormData_of valid_form; started := 0 |}])
    by (vm_compute; reflexivity).
  split; [exact Hp|]. split; [reflexivity|].
  apply (failure_returns_to_idle _ _ _ Rejected Hp eq_refl).
Defined.

(** C9 as stated fails: 10001 ms after a valid form was submitted, with
    the promise still pending, the handler is still submitting and has
    shown no notification. *)
Lemma no_timeout_after_10001_ms :
  let s := run [Submit; Elapse 10001] valid_page in
  (∃ p, pending s = [p] ∧
        (SUBMISSION_TIMEOUT CONTACT_CONFIG < clock s - started p)%N) ∧
  isSubmitting s = true ∧
  notifications s = [].
Proof.
  vm_compute. split; [|split; reflexivity].
  eexists. split; reflexivity.
Qed.

(** C9, as the code has it. [handleSubmit] waits for the promise without
    a bound: while a submission is in flight, no passage of time and no
    event other than the settling of the promise ends it or shows a
    notification. When the promise settles, however late, the outcome
    alone selects the path: the handler leaves the submitting state and
    shows one notification, of type success for a success and of type
    error otherwise, and the elapsed time plays no part in the page it
    leaves. *)
Theorem submission_waits_without_bound (s : Page) (es : list Event) :
  isSubmitting s = true →
  Forall (λ e, is_settle e = false) es →
  let s' := run es s in
  isSubmitting s' = true ∧ pending s' = pending s ∧
  notifications s' = notifications s ∧
  (∀ o ms, step (Settle o) (step (Elapse ms) s') = step (Elapse ms) (step (Settle o) s')) ∧
  (∀ o ms, pending s ≠ [] →
     isSubmitting (step (Settle o) (step (Elapse ms) s')) = false ∧
     ∃ m, notifications (step (Settle o) (step (Elapse ms) s'))
          = {| note_message := m;
               note_type := if is_failure o then error_t else success_t |}
            :: notifications s).
Proof.
  intros Hi Hes. cbv zeta.
  assert (H : isSubmitting (run es s) = true ∧ pending (run es s) = pending s ∧
              notifications (run es s) = notifications s).
  { revert s Hi. induction Hes as [|e es He _ IH]; intros s Hi; [done|].
    simpl. destruct (waiting_step e s He Hi) as (Hi' & <- & <-). by apply IH. }
  destruct H as (H1 & H2 & H3). repeat (split; [done|]). split.
  { intros o ms. apply step_elapse_commute. }
  intros o ms Hp. rewrite <- H2 in Hp. rewrite <- H3.
  by apply (settle_notifies o (step (Elapse ms) (run es s))).
Qed.

Lemma submission_waits_without_bound_witness :
  isSubmitting (run [Submit] valid_page) = true ∧
  Forall (λ e, is_settle e = false) [Elapse 10001; Submit; Blur F_email] ∧
  isSubmitting (run [Elapse 10001; Submit; Blur F_email] (run [Submit] valid_page))
  = true.
Proof.
  assert (Hi : isSubmitting (run [Submit] valid_page) = true)
    by (vm_compute; reflexivity).
  assert (Hes : Forall (λ e, is_settle e = false) [Elapse 10001; Submit; Blur F_email])
    by (repeat constructor).
  split; [exact Hi|]. split; [exact Hes|].
  pose proof (submission_waits_without_bound _ _ Hi Hes) as H.
  cbv zeta in H. exact (proj1 H).
Defined.

(** A validation that the debounce timer runs while a submission is in
    flight uses the trimmed value; the error it records survives the
    success of the submission, whose clean-up clears the marks only. *)
Example stale_error_after_success :
  let message := Js.lit "  xxxxxxxxx  " in
  let s := run [Input F_message message; Submit; Timer; Settle submitForm_outcome]
               valid_page in
  head (notifications s)
  = Some {| note_message := SUCCESS (MESSAGES CONTACT_CONFIG); note_type := success_t |} ∧
  errors (validator s) = {[ "message" := "Message must be at least 10 characters" ]}.
Proof. vm_compute. split; reflexivity. Qed.

(** X1. On any page the handler can reach, a submission that succeeds
    leaves the focus where it was: the first control is still disabled
    when [handleSuccess] calls [focus] on it. *)
Theorem success_keeps_focus
    (fm : Form) (button : option Button) (es : list Event) (response : Response) :
  let s := run es (ContactFormHandler_new fm button) in
  isSubmitting s = true → success response = true →
  activeElement (step (Settle (Resolved response)) s) = activeElement s.
Proof.
  cbv zeta. intros Hi Hr.
  pose proof (run_inv es _ (submitting_inv_new fm button)) as Hs.
  unfold submitting_inv in Hs. rewrite Hi in Hs. destruct Hs as [[p Hp] Hd].
  by apply (settle_success_keeps_focus _ p []).
Qed.

Lemma success_keeps_focus_witness :
  isSubmitting (run [Submit] (ContactFormHandler_new valid_form (Some send_button)))
  = true ∧
  activeElement
    (step (Settle submitForm_outcome)
       (run [Submit] (ContactFormHandler_new valid_form (Some send_button))))
  = activeElement (run [Submit] (ContactFormHandler_new valid_form (Some send_button))).
Proof.
  assert (Hi : isSubmitting
                 (run [Submit] (ContactFormHandler_new valid_form (Some send_button)))
               = true) by (vm_compute; reflexivity).
  split; [exact Hi|].
  apply (success_keeps_focus valid_form (Some send_button) [Submit]
           {| success := true; message := None |} Hi eq_refl).
Defined.

(** * Further properties of the contact form *)

Section validation_reading.
Implicit Types (s : Page) (f g : FieldId) (v : Js.str).

Lemma field_name_inj f g : field_name f = field_name g → f = g.
Proof. by destruct f, g. Qed.

Lemma forallb_trim v : forallb Js.is_space (Js.trim v) = forallb Js.is_space v.
Proof.
  unfold Js.trim, Js.trimEnd.
  by rewrite forallb_rev, forallb_trimStart, forallb_rev, forallb_trimStart.
Qed.

Lemma trim_nil_iff v : Js.trim v = [] ↔ forallb Js.is_space v = true.
Proof. by rewrite <- trim_empty, is_empty_nil. Qed.

Lemma only_field_changed_refl f s : only_field_changed f s s.
Proof. by repeat split. Qed.

Lemma only_field_changed_trans f s1 s2 s3 :
  only_field_changed f s1 s2 → only_field_changed f s2 s3 →
  only_field_changed f s1 s3.
Proof.
  intros [(C1 & ? & ? & ? & ? & ? & ? & ? & ?) O1]
         [(C2 & ? & ? & ? & ? & ? & ? & ? & ?) O2].
  split.
  - split.
    { intros g. destruct (C1 g) as (? & ? & ?), (C2 g) as (? & ? & ?).
      repeat split; congruence. }
    repeat split; congruence.
  - intros g Hg. destruct (O1 g Hg), (O2 g Hg). split; congruence.
Qed.

Lemma addError_only f m s : only_field_changed f s (exec (addError f m) s).
Proof.
  destruct s as [[x1 x2 x3 x4] ? ? ? ? [e i] ? ? ? ?].
  split.
  - split; [intros []; by destruct f | by repeat split].
  - intros g Hg. method_unfold. page_simpl. split.
    + apply lookup_insert_ne. intros E. by apply field_name_inj in E.
    + by destruct f, g.
Qed.

Lemma removeError_only f s : only_field_changed f s (exec (removeError f) s).
Proof.
  destruct s as [[x1 x2 x3 x4] ? ? ? ? [e i] ? ? ? ?].
  split.
  - split; [intros []; by destruct f | by repeat split].
  - intros g Hg. method_unfold. page_simpl. split.
    + apply lookup_delete_ne. intros E. by apply field_name_inj in E.
    + by destruct f, g.
Qed.

Lemma validateRequired_only f value fieldName s :
  only_field_changed f s (validateRequired f value fieldName s).2.
Proof.
  unfold validateRequired. destruct (_ || _).
  - apply addError_only.
  - apply removeError_only.
Qed.

Lemma validateEmail_only f value s :
  only_field_changed f s (validateEmail f value s).2.
Proof.
  unfold validateEmail. destruct (Js.falsy _); [apply only_field_changed_refl|].
  destruct (negb _); [apply addError_only | apply removeError_only].
Qed.

Lemma validateMessage_only f value s :
  only_field_changed f s (validateMessage f value s).2.
Proof.
  unfold validateMessage. destruct (Js.falsy _); [apply only_field_changed_refl|].
  destruct (_ <? _)%N; [apply addError_only|].
  destruct (_ <? _)%N; [apply addError_only | apply removeError_only].
Qed.

Lemma and_then_only f (a b : M bool) s :
  (∀ s, only_field_changed f s (a s).2) →
  (∀ s, only_field_changed f s (b s).2) →
  only_field_changed f s (and_then a b s).2.
Proof.
  intros Ha Hb. unfold and_then, bind. specialize (Ha s).
  destruct (a s) as [[] s1]; simpl in *; [|done].
  eapply only_field_changed_trans; [done | apply Hb].
Qed.

Lemma validateField_only f s : only_field_changed f s (exec (validateField f) s).
Proof.
  unfold exec, validateField. unfold bind at 1. unfold gets at 1. cbv beta iota.
  set (v := Some _).
  destruct f; unfold bind at 1.
  - pose proof (validateRequired_only F_name v "Name" s) as H.
    by destruct (validateRequired _ _ _ _).
  - pose proof (and_then_only F_email (validateRequired F_email v "Email")
                  (validateEmail F_email v) s
                  (validateRequired_only _ _ _) (validateEmail_only _ _)) as H.
    by destruct (and_then _ _ _).
  - pose proof (validateRequired_only F_subject v "Subject" s) as H.
    by destruct (validateRequired _ _ _ _).
  - pose proof (and_then_only F_message (validateRequired F_message v "Message")
                  (validateMessage F_message v) s
                  (validateRequired_only _ _ _) (validateMessage_only _ _)) as H.
    by destruct (and_then _ _ _).
Qed.
End validation_reading.

(** How the result of [validateForm] reads the error set and the marks. *)
Lemma validateForm_reads formData s :
  let r := validateForm formData s in
  (r.1 = true ↔ errors (validator r.2) = ∅) ∧
  isValid (validator r.2) = r.1 ∧
  (∀ f, entry_matches_marks f r.2) ∧
  (r.1 = false → ∃ f, errors (validator r.2) !! field_name f ≠ None).
Proof.
  cbv zeta. unfold validateForm, and_then.
  generalize (fd_get "name" formData) (fd_get "email" formData)
             (fd_get "subject" formData) (fd_get "message" formData).
  intros vn ve vs vm.
  unfold validateRequired, validateEmail, validateMessage.
  cbv beta iota zeta delta [bind ret modify gets addError removeError fst snd].
  destruct s as [[x1 x2 x3 x4] ? ? ? ? ? ? ? ? ?].
  split_ifs; page_simpl;
    (split; [lazymatch goal with
             | |- true = true ↔ _ =>
                 split; intros _; [vm_compute|]; reflexivity
             | |- false = true ↔ _ =>
                 split; [discriminate|];
                 intros H; exfalso; revert H;
                 apply (proj1 (bool_decide_eq_false _)); vm_compute; reflexivity
             end
            | split; [reflexivity|split;
    [ intros []; unfold entry_matches_marks; page_simpl;
      match goal with
      | |- match ?l with _ => _ end =>
          let o := eval vm_compute in l in change l with o; cbv beta iota
      end;
      first [ apply marked_error_intro | apply marked_success_intro ]
    | intros Hr; try discriminate Hr; clear Hr;
      first [ exists F_name; apply (proj1 (bool_decide_eq_false _));
              vm_compute; reflexivity
            | exists F_email; apply (proj1 (bool_decide_eq_false _));
              vm_compute; reflexivity
            | exists F_subject; apply (proj1 (bool_decide_eq_false _));
              vm_compute; reflexivity
            | exists F_message; apply (proj1 (bool_decide_eq_false _));
              vm_compute; reflexivity ] ]]]).
Qed.

(** X2. [validateForm] returns true exactly when it leaves the error set
    empty, and after it the entry of every field agrees with the marks of
    its control: an entry with its text shown inline, or no entry and the
    control marked as passed. *)
Theorem validateForm_result_reads_errors (formData : FormData) (s : Page) :
  let r := validateForm formData s in
  (r.1 = true ↔ errors (validator r.2) = ∅) ∧
  isValid (validator r.2) = r.1 ∧
  ∀ f, entry_matches_marks f r.2.
Proof.
  pose proof (validateForm_reads formData s) as H. cbv zeta in *.
  destruct H as (H1 & H2 & H3 & _). exact (conj H1 (conj H2 H3)).
Qed.

Section field_reading.
Implicit Types (s : Page) (f g : FieldId) (v : Js.str).

Lemma entry_addError f m s :
  errors (validator (exec (addError f m) s)) !! field_name f = Some m ∧
  get_field f (form (exec (addError f m) s)) = mark_error m (get_field f (form s)).
Proof.
  destruct s as [[x1 x2 x3 x4] ? ? ? ? [e i] ? ? ? ?]. method_unfold. page_simpl.
  split; [apply lookup_insert_eq | by destruct f].
Qed.

Lemma entry_removeError f s :
  errors (validator (exec (removeError f) s)) !! field_name f = None ∧
  get_field f (form (exec (removeError f) s)) = mark_success (get_field f (form s)).
Proof.
  destruct s as [[x1 x2 x3 x4] ? ? ? ? [e i] ? ? ? ?]. method_unfold. page_simpl.
  split; [apply lookup_delete_eq | by destruct f].
Qed.

Lemma matches_addError f m s : entry_matches_marks f (exec (addError f m) s).
Proof.
  unfold entry_matches_marks. destruct (entry_addError f m s) as [-> ->].
  apply marked_error_intro.
Qed.

Lemma matches_removeError f s : entry_matches_marks f (exec (removeError f) s).
Proof.
  unfold entry_matches_marks. destruct (entry_removeError f s) as [-> ->].
  apply marked_success_intro.
Qed.

(** What [validateRequired] does with a trimmed value. *)
Lemma validateRequired_trimmed f v fieldName s :
  validateRequired f (Some (Js.trim v)) fieldName s =
  if Js.is_empty (Js.trim v)
  then (false, exec (addError f (fieldName +:+ " is required")) s)
  else (true, exec (removeError f) s).
Proof. by rewrite validateRequired_eq, forallb_trim, <- trim_empty. Qed.

Lemma test_email_nil : Regex.test email_regex [] = false.
Proof. reflexivity. Qed.
(** The verdict of [validateField] on its control. *)
Lemma validateField_entry f s :
  let v := Js.trim (value (get_field f (form s))) in
  let s' := exec (validateField f) s in
  entry_matches_marks f s' ∧
  (errors (validator s') !! field_name f = None ↔
     match f with
     | F_name | F_subject => v ≠ []
     | F_email => Regex.test (EMAIL_PATTERN CONTACT_CONFIG) v = true
     | F_message => (10 ≤ Js.length v ≤ 1000)%N
     end).
Proof.
  cbv zeta. unfold exec, validateField, and_then, bind, gets.
  cbv beta iota delta [id].
  set (v := Js.trim (value (get_field f (form s)))).
  assert (Hreq : ∀ n, validateRequired f (Some v) n s
            = if Js.is_empty v then (false, exec (addError f (n +:+ " is required")) s)
              else (true, exec (removeError f) s)).
  { intros n. subst v. apply validateRequired_trimmed. }
  clearbody v.
  destruct f; cbv beta; rewrite Hreq; destruct v as [|c v]; cbn [Js.is_empty fst snd ret].
  - split; [apply matches_addError|]. destruct (entry_addError F_name "Name is required" s) as [E _].
    change ("Name" +:+ " is required") with "Name is required". rewrite E. split; done.
  - split; [apply matches_removeError|]. destruct (entry_removeError F_name s) as [-> _]. split; done.
  - split; [apply matches_addError|]. destruct (entry_addError F_email "Email is required" s) as [E _].
    change ("Email" +:+ " is required") with "Email is required". rewrite E. split; done.
  - rewrite validateEmail_eq by done. cbn [EMAIL_PATTERN CONTACT_CONFIG].
    destruct (Regex.test email_regex (c :: v)); cbn [fst snd ret].
    + split; [apply matches_removeError|]. destruct (entry_removeError F_email (exec (removeError F_email) s)) as [-> _]. split; done.
    + split; [apply matches_addError|]. destruct (entry_addError F_email "Please enter a valid email address" (exec (removeError F_email) s)) as [-> _]. split; done.
  - split; [apply matches_addError|]. destruct (entry_addError F_subject "Subject is required" s) as [E _].
    change ("Subject" +:+ " is required") with "Subject is required". rewrite E. split; done.
  - split; [apply matches_removeError|]. destruct (entry_removeError F_subject s) as [-> _]. split; done.
  - split; [apply matches_addError|]. destruct (entry_addError F_message "Message is required" s) as [E _].
    change ("Message" +:+ " is required") with "Message is required". rewrite E.
    split; [done|]. unfold Js.length. simpl. lia.
  - rewrite validateMessage_eq by done.
    destruct (N.ltb_spec (Js.length (c :: v)) 10); cbn [fst snd ret].
    { split; [apply matches_addError|].
      destruct (entry_addError F_message "Message must be at least 10 characters" (exec (removeError F_message) s)) as [-> _].
      split; [done|lia]. }
    destruct (N.ltb_spec 1000 (Js.length (c :: v))); cbn [fst snd ret].
    { split; [apply matches_addError|].
      destruct (entry_addError F_message "Message must be less than 1000 characters" (exec (removeError F_message) s)) as [-> _].
      split; [done|lia]. }
    split; [apply matches_removeError|].
    destruct (entry_removeError F_message (exec (removeError F_message) s)) as [-> _].
    split; [lia|done].
Qed.
End field_reading.

(** X3. [validateField] changes nothing but the validator and the marks
    of the control it is called on: values, disabled flags, button,
    counter, focus, notifications and the submission state are kept, and
    so are the error entries and the controls of the other fields. *)
Theorem validateField_touches_one_field (f : FieldId) (s : Page) :
  let s' := exec (validateField f) s in
  same_outside_validation s' s ∧
  ∀ g, g ≠ f →
    errors (validator s') !! field_name g = errors (validator s) !! field_name g ∧
    get_field g (form s') = get_field g (form s).
Proof. apply validateField_only. Qed.

(** X4. [validateField] judges the trimmed value of the control. After
    it the entry of the field agrees with the marks of the control, and
    there is no entry exactly when the trimmed value is not empty (name,
    subject), matches the email pattern (email), or has between 10 and
    1000 code units (message). *)
Theorem validateField_verdict (f : FieldId) (s : Page) :
  let v := Js.trim (value (get_field f (form s))) in
  let s' := exec (validateField f) s in
  entry_matches_marks f s' ∧
  (errors (validator s') !! field_name f = None ↔
     match f with
     | F_name | F_subject => v ≠ []
     | F_email => Regex.test (EMAIL_PATTERN CONTACT_CONFIG) v = true
     | F_message => (10 ≤ Js.length v ≤ 1000)%N
     end).
Proof. apply validateField_entry. Qed.

Section live_validation.
Implicit Types (s : Page) (f g : FieldId) (v w : Js.str).




End live_validation.




Section counter_facts.
Implicit Types (s : Page) (f : FieldId).

Lemma updateCounter_shows s : counter_current (exec updateCounter s).
Proof.
  destruct s as [[x1 x2 x3 x4] ? ? ? ? ? ? ? ? ?]. method_unfold.
  unfold counter_current. page_simpl. eexists. split; [reflexivity|].
  unfold counter_shows. cbn [counter_text counter_color MAX_MESSAGE_LENGTH CONTACT_CONFIG].
  split; [reflexivity|].
  generalize (Js.length (value x4)). intros n.
  change (Z.of_N 1000) with 1000%Z.
  destruct (Z.ltb_spec (1000 - Z.of_N n) 50), (N.ltb_spec 950 n); try lia; [done|].
  destruct (Z.ltb_spec (1000 - Z.of_N n) 100), (N.ltb_spec 900 n); try lia; done.
Qed.

(** The parts of the page the counter invariant reads. *)
Lemma counter_current_same s s' :
  counter s' = counter s →
  value (get_field F_message (form s')) = value (get_field F_message (form s)) →
  counter_current s → counter_current s'.
Proof. unfold counter_current. by intros -> ->. Qed.

Lemma handleSubmit_keeps_controls s :
  let s' := exec handleSubmit s in
  counter s' = counter s ∧
  ∀ f, value (get_field f (form s')) = value (get_field f (form s)) ∧
       defaultValue (get_field f (form s')) = defaultValue (get_field f (form s)).
Proof.
  cbv zeta. destruct (isSubmitting s) eqn:Hi.
  { unfold exec. by rewrite handleSubmit_reentrant. }
  unfold exec, handleSubmit, bind, gets. rewrite Hi.
  pose proof (validateForm_frame (FormData_of (form s)) s) as Hf.
  destruct (validateForm (FormData_of (form s)) s) as [ok s1].
  simpl in Hf. destruct Hf as (Hc & _ & Hk & _).
  assert (Hv : ∀ f, value (get_field f (form s1)) = value (get_field f (form s)) ∧
                    defaultValue (get_field f (form s1)) = defaultValue (get_field f (form s))).
  { intros f. by destruct (Hc f) as (? & ? & _). }
  clear Hc. destruct s1 as [[x1 x2 x3 x4] ? ? ? ? ? ? ? ? ?].
  destruct ok; cbn [negb].
  - method_unfold. page_simpl. split; [done|]. intros f. rewrite <- (proj1 (Hv f)), <- (proj2 (Hv f)).
    by destruct f.
  - method_unfold. cbn [form] in *.
    destruct (filter _ _) as [|f0 ?]; page_simpl; [by split|].
    destruct (disabled _); page_simpl; by split.
Qed.

Lemma resume_controls o s :
  defaultValue (get_field F_message (form s)) = [] →
  counter_current s →
  let s' := exec (handleSubmit_resume o) s in
  defaultValue (get_field F_message (form s')) = [] ∧ counter_current s'.
Proof.
  destruct s as [[x1 x2 x3 x4] ? c ? ? ? ? ? ? ?]. cbn [form get_field f_message].
  intros Hd (c0 & Hc & Hs). cbn [counter] in Hc. subst c.
  destruct o as [r|]; method_unfold; [destruct (success r)|]; page_simpl;
    try destruct (disabled x1); page_simpl; unfold counter_current; page_simpl;
    (split; [done|]); eexists; (split; [reflexivity|]);
    try exact Hs; cbn [clear_marks set_disabled value]; rewrite Hd; by vm_compute.
Qed.
End counter_facts.

(** X6. When the message control starts empty by default, the character
    counter is up to date on every page the handler reaches: it reads
    [<length>/1000 characters] for the current length of the message, in
    the danger colour above 950 code units, the warning colour above 900
    and the muted colour otherwise. *)
Theorem counter_tracks_message
    (fm : Form) (button : option Button) (es : list Event) :
  defaultValue (f_message fm) = [] →
  let s := run es (ContactFormHandler_new fm button) in
  ∃ c, counter s = Some c ∧
       counter_shows (Js.length (value (f_message (form s)))) c.
Proof.
  intros Hd. cbv zeta.
  enough (H : defaultValue (get_field F_message
                (form (run es (ContactFormHandler_new fm button)))) = [] ∧
              counter_current (run es (ContactFormHandler_new fm button)))
    by exact (proj2 H).
  assert (H0 : defaultValue (get_field F_message
                 (form (ContactFormHandler_new fm button))) = [] ∧
               counter_current (ContactFormHandler_new fm button)).
  { split; [by destruct fm | apply updateCounter_shows]. }
  revert H0. generalize (ContactFormHandler_new fm button). clear.
  induction es as [|e es IH]; intros s [Hd Hc]; [done|].
  cbn [run foldl]. apply IH. clear IH.
  destruct e as [|o|f|f v| |ms]; cbn [step].
  - destruct (handleSubmit_keeps_controls s) as [Hk Hv]. split.
    + by rewrite (proj2 (Hv F_message)).
    + eapply counter_current_same; [exact Hk | exact (proj1 (Hv F_message)) | done].
  - destruct (pending s) as [|p rest]; [done|].
    apply resume_controls; [done|].
    eapply counter_current_same; [| |exact Hc]; done.
  - destruct (validateField_frame f s) as (Hs & _ & Hk & _).
    destruct (Hs F_message) as (Hv & Hdv & _). split; [by rewrite Hdv|].
    eapply counter_current_same; [exact Hk | exact Hv | done].
  - destruct (disabled _); [done|].
    destruct s as [[x1 x2 x3 x4] sb cn ae nt vd isb pn db ck].
    destruct f; cbn [form get_field f_message] in *.
    1-3: split; [done|]; eapply counter_current_same; [| |exact Hc]; done.
    split; [done|].
    pose proof (updateCounter_shows
      (with_form (update_field F_message (set_value v))
         {| form := {| f_name := x1; f_email := x2; f_subject := x3; f_message := x4 |};
            submitButton := sb; counter := cn;
            activeElement := ae; notifications := nt;
            validator := vd; isSubmitting := isb;
            pending := pn; debounced := db; clock := ck |})) as H.
    eapply counter_current_same; [| |exact H]; done.
  - destruct (debounced s) as [f|]; [|done].
    destruct (validateField_frame f (with_debounced None s)) as (Hs & _ & Hk & _).
    destruct (Hs F_message) as (Hv & Hdv & _). split; [by rewrite Hdv|].
    eapply counter_current_same; [exact Hk | exact Hv | done].
  - split; [done|]. eapply counter_current_same; [| |exact Hc]; done.
Qed.

Lemma counter_tracks_message_witness :
  defaultValue (f_message valid_form) = [] ∧
  ∃ c, counter (run [Input F_message (Js.lit "hello"); Submit]
                    (ContactFormHandler_new valid_form (Some send_button))) = Some c ∧
       counter_shows
         (Js.length (value (f_message (form
            (run [Input F_message (Js.lit "hello"); Submit]
                 (ContactFormHandler_new valid_form (Some send_button))))))) c.
Proof.
  split; [reflexivity|].
  pose proof (counter_tracks_message valid_form (Some send_button)
                [Input F_message (Js.lit "hello"); Submit] eq_refl) as H.
  cbv zeta in H. exact H.
Defined.

(** Without that default the counter can be wrong: after a successful
    submission the form is reset to its default text while the counter is
    set to zero. *)
Example counter_ignores_default_text :
  let fm := filled_form (Js.lit "Jo") (Js.lit "jo@x.com") (Js.lit "Hi")
              (Js.repeat (Js.lit "x") 20) in
  let fm' := update_field F_message (λ x,
               {| value := value x; defaultValue := Js.repeat (Js.lit "x") 20;
                  disabled := disabled x; aria_invalid := aria_invalid x;
                  group_error := group_error x; group_success := group_success x;
                  errorElement := errorElement x |}) fm in
  let s := run [Submit; Settle submitForm_outcome] (ContactFormHandler_new fm' None) in
  Js.length (value (f_message (form s))) = 20%N ∧
  counter_text <$> counter s = Some "0/1000 characters".
Proof. vm_compute. split; reflexivity. Qed.

(** ** The two ways a submission starts *)

Section submit_start.
Implicit Types (s : Page) (f g : FieldId).

(** The error class of a group is set exactly when the field has an entry. *)
Lemma group_error_entry f s :
  entry_matches_marks f s →
  (group_error (get_field f (form s)) = true → errors (validator s) !! field_name f ≠ None) ∧
  (group_error (get_field f (form s)) = false → errors (validator s) !! field_name f = None).
Proof.
  unfold entry_matches_marks.
  destruct (errors (validator s) !! field_name f) as [m|].
  - intros (He & _). split; [done|]. intros H. by rewrite H in He.
  - intros (_ & He & _). split; [|done]. intros H. by rewrite H in He.
Qed.

(** The submit listener alone, on values that fail validation. *)
Lemma handleSubmit_invalid s :
  isSubmitting s = false →
  (validateForm (FormData_of (form s)) s).1 = false →
  let s' := exec handleSubmit s in
  notifications s' =
    {| note_message := VALIDATION_ERROR (MESSAGES CONTACT_CONFIG);
       note_type := error_t |} :: notifications s ∧
  pending s' = pending s ∧ isSubmitting s' = false ∧
  submitButton s' = submitButton s ∧ same_controls (form s') (form s) ∧
  validator s' = validator (validateForm (FormData_of (form s)) s).2 ∧
  ∃ f, errors (validator s') !! field_name f ≠ None ∧
       (∀ g, field_index g < field_index f →
             errors (validator s') !! field_name g = None) ∧
       activeElement s' =
         if disabled (get_field f (form s)) then activeElement s else Some f.
Proof.
  intros Hi Hv. cbv zeta.
  pose proof (validateForm_frame (FormData_of (form s)) s) as Hf.
  pose proof (validateForm_reads (FormData_of (form s)) s) as Hr.
  cbv zeta in Hr. destruct Hr as (_ & _ & Hm & Hex).
  specialize (Hex Hv).
  unfold exec, handleSubmit, bind, gets. rewrite Hi.
  destruct (validateForm (FormData_of (form s)) s) as [ok s1].
  cbn [fst snd] in *. subst ok. cbn [negb].
  destruct Hf as (Hc & Hb & _ & Ha & Hn & His & Hp & _).
  assert (Hg := λ f, group_error_entry f s1 (Hm f)).
  assert (Hd := λ f, proj2 (proj2 (Hc f))).
  pose proof (Hg F_name) as [Hn1 Hn0]. pose proof (Hg F_email) as [He1 He0].
  pose proof (Hg F_subject) as [Hs1 Hs0]. pose proof (Hg F_message) as [Hm1 Hm0].
  pose proof (Hd F_name) as Hdn. pose proof (Hd F_email) as Hde.
  pose proof (Hd F_subject) as Hds. pose proof (Hd F_message) as Hdm.
  clear Hg Hd Hm.
  destruct s1 as [[x1 x2 x3 x4] sb cn ae nt vd isb pn db ck].
  destruct s as [[y1 y2 y3 y4] sb' cn' ae' nt' vd' isb' pn' db' ck'].
  unfold showNotification, focusFirstError, focus, modify, gets, ret, id.
  page_simpl. cbn [filter list_filter] in *.
  subst.
  destruct (group_error x1) eqn:G1.
  { rewrite decide_True by done. cbn [snd].
    destruct (disabled x1) eqn:D; (repeat (split; [done|])); exists F_name;
      rewrite <- Hdn;
      (split; [by apply Hn1|]; split; [intros [] ?; simpl in *; lia|done]). }
  rewrite decide_False by done.
  destruct (group_error x2) eqn:G2.
  { rewrite decide_True by done. cbn [snd].
    destruct (disabled x2) eqn:D; (repeat (split; [done|])); exists F_email;
      rewrite <- Hde;
      (split; [by apply He1|]; split; [|done]);
      intros [] ?; simpl in *; try lia; by apply Hn0. }
  rewrite decide_False by done.
  destruct (group_error x3) eqn:G3.
  { rewrite decide_True by done. cbn [snd].
    destruct (disabled x3) eqn:D; (repeat (split; [done|])); exists F_subject;
      rewrite <- Hds;
      (split; [by apply Hs1|]; split; [|done]);
      intros [] ?; simpl in *; try lia; by (apply Hn0 || apply He0). }
  rewrite decide_False by done.
  destruct (group_error x4) eqn:G4.
  { rewrite decide_True by done. cbn [snd].
    destruct (disabled x4) eqn:D; (repeat (split; [done|])); exists F_message;
      rewrite <- Hdm;
      (split; [by apply Hm1|]; split; [|done]);
      intros [] ?; simpl in *; try lia;
      by (apply Hn0 || apply He0 || apply Hs0). }
  destruct Hex as [[] Hex]; exfalso; apply Hex; simpl; auto.
Qed.

(** What [FormData] holds for a field: its value, unless the control is
    disabled. *)
Lemma fd_get_FormData_of f fm :
  fd_get (field_name f) (FormData_of fm) =
  if disabled (get_field f fm) then None else Some (value (get_field f fm)).
Proof.
  destruct fm as [x1 x2 x3 x4]. unfold FormData_of, all_fields.
  destruct f;
    cbn [omap list_omap get_field f_name f_email f_subject f_message];
    destruct (disabled x1), (disabled x2), (disabled x3), (disabled x4);
    reflexivity.
Qed.

Lemma FormData_of_enabled fm :
  (∀ f, disabled (get_field f fm) = false) → FormData_of fm = all_entries fm.
Proof.
  intros H. unfold FormData_of, all_entries, all_fields.
  cbn [omap list_omap fmap list_fmap].
  by rewrite (H F_name), (H F_email), (H F_subject), (H F_message).
Qed.

(** Validation passes only on data that has an entry for every field. *)
Lemma validateForm_true_entries formData s f :
  (validateForm formData s).1 = true → fd_get (field_name f) formData ≠ None.
Proof.
  unfold validateForm, and_then.
  intros H Hnone. revert H.
  change (fd_get (field_name f) formData = None) in Hnone.
  destruct s as [[x1 x2 x3 x4] sb cn ae nt [e i] isb pn db ck].
  destruct f; cbn [field_name] in Hnone; rewrite Hnone;
    unfold validateRequired at 1 2 3 4; unfold validateEmail, validateMessage;
    cbv beta iota zeta delta [bind ret modify gets addError removeError fst snd];
    cbn [Js.falsy orb];
    split_ifs; page_simpl; discriminate.
Qed.

(** X22. A submission of values that pass validation calls the submit
    operation once, with the entries of all four controls as the user
    left them, and puts the handler in its submitting state: every
    control disabled with its value kept, the button disabled and reading
    [Sending...], no notification and no change of focus. *)
Theorem valid_submit_sends_entries s :
  isSubmitting s = false →
  (validateForm (FormData_of (form s)) s).1 = true →
  let s' := exec handleSubmit s in
  pending s' = {| sent := all_entries (form s); started := clock s |} :: pending s ∧
  isSubmitting s' = true ∧
  notifications s' = notifications s ∧ activeElement s' = activeElement s ∧
  (∀ f, disabled (get_field f (form s)) = false ∧
        disabled (get_field f (form s')) = true ∧
        value (get_field f (form s')) = value (get_field f (form s))) ∧
  (∀ b, submitButton s = Some b →
        submitButton s' = Some {| btn_disabled := true; btn_loading := true;
                                  btn_text := "Sending..." |}).
Proof.
  intros Hi Hv. cbv zeta.
  assert (Hen : ∀ f, disabled (get_field f (form s)) = false).
  { intros f. pose proof (validateForm_true_entries _ _ f Hv) as H.
    rewrite fd_get_FormData_of in H. by destruct (disabled _). }
  rewrite <- (FormData_of_enabled _ Hen).
  pose proof (validateForm_frame (FormData_of (form s)) s) as Hf.
  unfold exec, handleSubmit, bind, gets. rewrite Hi.
  destruct (validateForm (FormData_of (form s)) s) as [ok s1].
  cbn [fst snd] in *. subst ok. cbn [negb].
  destruct Hf as (Hc & Hb & _ & Ha & Hn & His & Hp & _ & Hk).
  unfold setSubmittingState, submitForm, modify, bind.
  destruct s1 as [[x1 x2 x3 x4] sb cn ae nt vd isb pn db ck].
  page_simpl. subst.
  repeat (split; [done|]). split.
  - intros f. split; [done|]. destruct (Hc f) as (Hval & _). by destruct f.
  - by intros b ->.
Qed.

Lemma valid_submit_sends_entries_witness :
  isSubmitting valid_page = false ∧
  (validateForm (FormData_of (form valid_page)) valid_page).1 = true ∧
  pending (exec handleSubmit valid_page) =
    {| sent := all_entries (form valid_page); started := clock valid_page |}
      :: pending valid_page.
Proof.
  assert (H1 : isSubmitting valid_page = false) by (vm_compute; reflexivity).
  assert (H2 : (validateForm (FormData_of (form valid_page)) valid_page).1 = true)
    by (vm_compute; reflexivity).
  pose proof (valid_submit_sends_entries valid_page H1 H2) as H.
  cbv zeta in H.
  exact (conj H1 (conj H2 (proj1 H))).
Defined.

(** A string without white space is its own trimmed form. *)
Lemma trim_no_space v :
  forallb (λ c, negb (Js.is_space c)) v = true → Js.trim v = v.
Proof.
  assert (Hs : ∀ u, forallb (λ c, negb (Js.is_space c)) u = true → Js.trimStart u = u).
  { intros [|c u]; [done|]. simpl. intros [Hc _]%andb_true_iff.
    apply negb_true_iff in Hc. by rewrite Hc. }
  intros H. unfold Js.trim, Js.trimEnd. rewrite (Hs v H).
  rewrite Hs by (by rewrite forallb_rev). apply rev_involutive.
Qed.

(** A field that [validateForm] leaves without an entry had a value that
    passed its checks. *)
Lemma validateForm_passed formData s h :
  errors (validator (validateForm formData s).2) !! field_name h = None →
  ∃ v, fd_get (field_name h) formData = Some v ∧ Js.trim v ≠ [] ∧
       match h with
       | F_email => Regex.test (EMAIL_PATTERN CONTACT_CONFIG) v = true
       | F_message => (10 ≤ Js.length v ≤ 1000)%N
       | F_name | F_subject => True
       end.
Proof.
  unfold validateForm, and_then.
  destruct h; cbn [field_name];
    generalize (fd_get "name" formData) (fd_get "email" formData)
               (fd_get "subject" formData) (fd_get "message" formData);
    intros vn ve vs vm;
    unfold validateRequired, validateEmail, validateMessage;
    cbv beta iota zeta delta [bind ret modify gets addError removeError fst snd];
    destruct s as [[x1 x2 x3 x4] sb cn ae nt [e i] isb pn db ck];
    split_ifs; page_simpl;
    (match goal with
     | |- ?l = None → _ => let o := eval vm_compute in l in change l with o
     end);
    (intros Hl; try discriminate Hl; clear Hl);
    (match goal with
     | |- ∃ v, ?vh = Some v ∧ _ => destruct vh as [v|]
     end);
    cbn [Js.falsy default from_option id orb
         MIN_MESSAGE_LENGTH MAX_MESSAGE_LENGTH CONTACT_CONFIG] in *;
    try discriminate;
    repeat match goal with
           | H : _ || _ = false |- _ => apply orb_false_elim in H as [? ?]
           | H : negb _ = false |- _ => apply negb_false_iff in H
           | H : (_ <? _)%N = false |- _ => apply N.ltb_ge in H
           end;
    try congruence;
    (exists v; split; [reflexivity|]; split;
       [intros E; match goal with
                  | H : Js.is_empty (Js.trim _) = false |- _ => by rewrite E in H
                  end
       |first [exact I | assumption | split; assumption]]).
Qed.

(** X21. A submission of values that fail validation shows the
    validation notification, calls no submit operation and leaves the
    handler idle, the button and the values of the controls as they were.
    Some field has an entry in the error set, and the first such field in
    the order of the form receives the focus (unless that control is
    disabled, on which [focus()] has no effect). If that takes the focus
    away from another control, the blur listener of that control runs
    too and validates it; all of the above holds of the page this
    leaves. *)
Theorem invalid_submit_focuses_first_error s :
  isSubmitting s = false →
  (validateForm (FormData_of (form s)) s).1 = false →
  let s' := run (submit_events s) s in
  notifications s' =
    {| note_message := VALIDATION_ERROR (MESSAGES CONTACT_CONFIG);
       note_type := error_t |} :: notifications s ∧
  pending s' = pending s ∧ isSubmitting s' = false ∧
  submitButton s' = submitButton s ∧ same_controls (form s') (form s) ∧
  ∃ f, errors (validator s') !! field_name f ≠ None ∧
       (∀ g, field_index g < field_index f →
             errors (validator s') !! field_name g = None) ∧
       activeElement s' =
         (if disabled (get_field f (form s)) then activeElement s else Some f) ∧
       submit_events s =
         Submit :: match activeElement s with
                   | Some h =>
                       if bool_decide (h ≠ f) && negb (disabled (get_field f (form s)))
                       then [Blur h] else []
                   | None => []
                   end.
Proof.
  intros Hi Hv.
  destruct (handleSubmit_invalid s Hi Hv) as (N & P & I & B & C & V & f & E & Bf & A).
  cbv zeta. unfold submit_events, blur_dispatched.
  change (step Submit s) with (exec handleSubmit s).
  set (s1 := exec handleSubmit s) in *.
  assert (Hrun : run [Submit] s = s1) by reflexivity.
  rewrite A.
  destruct (activeElement s) as [h|] eqn:Hae.
  2: { cbv beta iota. rewrite Hrun. repeat (split; [done|]). exists f.
       rewrite A, ?Hae. done. }
  destruct (disabled (get_field f (form s))) eqn:Hd.
  { rewrite decide_True by done. rewrite Hrun. repeat (split; [done|]).
    exists f. rewrite A, ?Hae, ?Hd. cbn [negb]. rewrite andb_false_r. done. }
  destruct (decide (h = f)) as [->|Hne].
  { rewrite Hrun. repeat (split; [done|]). exists f.
    rewrite A, ?Hae, ?Hd, bool_decide_eq_false_2 by (intros H; by apply H). done. }
  change (run [Submit; Blur h] s) with (exec (validateField h) s1).
  destruct (validateField_only h s1) as [(Hc & Hb & _ & Ha & Hn & His & Hp & _) Ho].
  set (s2 := exec (validateField h) s1) in *.
  split; [by rewrite Hn|]. split; [by rewrite Hp|]. split; [by rewrite His|].
  split; [by rewrite Hb|]. split.
  { intros g. destruct (Hc g) as (? & ? & ?), (C g) as (? & ? & ?).
    repeat split; congruence. }
  exists f. rewrite ?Hae, ?Hd. split; [|split; [|split]].
  - destruct (Ho f) as [-> _]; [by intros ->|]. exact E.
  - intros g Hg. destruct (decide (g = h)) as [->|Hgh].
    2: { destruct (Ho g Hgh) as [-> _]. by apply Bf. }
    pose proof (Bf h Hg) as Hnone. rewrite V in Hnone.
    destruct (validateForm_passed _ _ _ Hnone) as (v & Hget & Htrim & Hx).
    rewrite fd_get_FormData_of in Hget.
    destruct (disabled (get_field h (form s))); [done|].
    injection Hget as <-.
    pose proof (validateField_entry h s1) as [_ Hverdict]. cbv zeta in Hverdict.
    apply Hverdict. destruct (C h) as (-> & _).
    destruct h; [exact Htrim| |exact Htrim|destruct f; simpl in Hg; lia].
    pose proof (email_regex_shape _ Hx) as [_ Hsp]%andb_true_iff.
    by rewrite (trim_no_space _ Hsp).
  - by rewrite Ha, A, ?Hae, ?Hd.
  - by rewrite bool_decide_eq_true_2.
Qed.

Lemma invalid_submit_focuses_first_error_witness :
  isSubmitting (with_activeElement (Some F_message) blank_page) = false ∧
  (validateForm (FormData_of (form (with_activeElement (Some F_message) blank_page)))
     (with_activeElement (Some F_message) blank_page)).1 = false ∧
  notifications (run (submit_events (with_activeElement (Some F_message) blank_page))
                     (with_activeElement (Some F_message) blank_page)) =
    {| note_message := VALIDATION_ERROR (MESSAGES CONTACT_CONFIG);
       note_type := error_t |}
      :: notifications (with_activeElement (Some F_message) blank_page) ∧
  pending (run (submit_events (with_activeElement (Some F_message) blank_page))
               (with_activeElement (Some F_message) blank_page))
  = pending (with_activeElement (Some F_message) blank_page).
Proof.
  assert (H1 : isSubmitting (with_activeElement (Some F_message) blank_page) = false)
    by (vm_compute; reflexivity).
  assert (H2 : (validateForm
                  (FormData_of (form (with_activeElement (Some F_message) blank_page)))
                  (with_activeElement (Some F_message) blank_page)).1 = false)
    by (vm_compute; reflexivity).
  pose proof (invalid_submit_focuses_first_error
                (with_activeElement (Some F_message) blank_page) H1 H2) as H.
  cbv zeta in H.
  exact (conj H1 (conj H2 (conj (proj1 H) (proj1 (proj2 H))))).
Defined.

(** The blur caused by [focusFirstError] is not idle: with the focus in
    the message control, whose text is long enough only with the spaces
    around it, a submission with an empty name moves the focus to the
    name control, and the blur listener of the message control records
    an error that [validateForm] had not found. *)
Example invalid_submit_blur_adds_error :
  let fm := filled_form [] (Js.lit "jo@x.com") (Js.lit "Hi") (Js.lit "  xxxxxxxxx  ") in
  let s := with_activeElement (Some F_message)
             (ContactFormHandler_new fm (Some send_button)) in
  submit_events s = [Submit; Blur F_message] ∧
  errors (validator (step Submit s)) = {[ "name" := "Name is required" ]} ∧
  errors (validator (run (submit_events s) s))
  = {[ "name" := "Name is required";
       "message" := "Message must be at least 10 characters" ]} ∧
  activeElement (run (submit_events s) s) = Some F_name.
Proof. cbv zeta. split; [|split; [|split]]; vm_compute; reflexivity. Qed.

End submit_start.

(** * Properties of the utilities *)

Section debounce_facts.
Context {A : Type}.
Variable wait : N.
Implicit Types (st : Debounce.t A) (e : Debounce.event A) (es : list (Debounce.event A)).

Lemma debounce_inv_fresh : debounce_inv wait (Debounce.fresh (A := A)).
Proof.
  split; [done|]. split; [|done]. intros t a H. by apply elem_of_nil in H.
Qed.

Lemma debounce_inv_step e st :
  debounce_inv wait st → debounce_inv wait (Debounce.step wait e st).
Proof.
  intros H. pose proof H as (Ht & Hc & Hn). destruct e as [a| |ms]; simpl.
  - split; [|split].
    + intros due a' [= <- <-]. exists (Debounce.now st). split; [apply elem_of_cons; by left|done].
    + intros t a' Hin. destruct (Hc t a' Hin) as (t0 & ? & ?).
      exists t0. split; [apply elem_of_cons; by right|done].
    + simpl. destruct (Debounce.timeout st); simpl in Hn; lia.
  - destruct (Debounce.timeout st) as [[due a]|] eqn:E; [|done].
    destruct (N.leb_spec due (Debounce.now st)); [|done].
    destruct (Ht due a eq_refl) as (t0 & Hin & ->). simpl in Hn.
    split; [done|]. split; simpl.
    + intros t a' [[= -> ->]|Hin']%elem_of_cons.
      * exists t0. done.
      * by apply Hc.
    + lia.
  - exact H.
Qed.

Lemma debounce_inv_run es st :
  debounce_inv wait st → debounce_inv wait (Debounce.run wait es st).
Proof.
  revert st. induction es as [|e es IH]; intros st H; [done|].
  simpl. apply IH. by apply debounce_inv_step.
Qed.

Lemma debounce_run_app es1 es2 st :
  Debounce.run wait (es1 ++ es2) st
  = Debounce.run wait es2 (Debounce.run wait es1 st).
Proof. unfold Debounce.run. apply foldl_app. Qed.

Lemma debounce_invokes (l : list A) st :
  let st' := Debounce.run wait (Debounce.Invoke <$> l) st in
  Debounce.now st' = Debounce.now st ∧ Debounce.calls st' = Debounce.calls st.
Proof.
  cbv zeta. unfold Debounce.run.
  revert st. induction l as [|a l IH]; intros st; [done|].
  rewrite fmap_cons. cbn [foldl].
  destruct (IH (Debounce.step wait (Debounce.Invoke a) st)) as [E1 E2].
  rewrite E1, E2. done.
Qed.
End debounce_facts.

(** X7. [func] is only ever called by a debounced function with the
    arguments of an earlier call of the debounced function, and no sooner
    than [wait] ms after that call; it is not called more often than the
    debounced function. *)
Theorem debounced_call_waits
    {A : Type} (wait : N) (es : list (Debounce.event A)) :
  let st := Debounce.run wait es Debounce.fresh in
  (∀ t a, (t, a) ∈ Debounce.calls st →
     ∃ t0, (t0, a) ∈ Debounce.invoked st ∧ (t0 + wait ≤ t)%N) ∧
  length (Debounce.calls st) ≤ length (Debounce.invoked st).
Proof.
  cbv zeta.
  destruct (debounce_inv_run wait es _ (debounce_inv_fresh wait)) as (_ & Hc & Hn).
  split; [exact Hc | lia].
Qed.

(** X8. Of a burst of calls of the debounced function made before the
    timer fires, only the last one reaches [func]: once [wait] ms have
    passed the timer calls [func] once, with the arguments of the last
    call, and a further firing does nothing. *)
Theorem debounce_burst_keeps_last
    {A : Type} (wait : N) (st : Debounce.t A) (l : list A) (a : A) (d : N) :
  (wait ≤ d)%N →
  let st' := Debounce.run wait
               ((Debounce.Invoke <$> l)
                ++ [Debounce.Invoke a; Debounce.Elapse d; Debounce.Fire; Debounce.Fire])
               st in
  Debounce.calls st' = ((Debounce.now st + d)%N, a) :: Debounce.calls st ∧
  Debounce.timeout st' = None.
Proof.
  intros Hd. cbv zeta. rewrite debounce_run_app.
  destruct (debounce_invokes wait l st) as [Hn Hc].
  set (st1 := Debounce.run wait (Debounce.Invoke <$> l) st) in *.
  unfold Debounce.run. simpl.
  destruct (N.leb_spec (Debounce.now st1 + wait) (Debounce.now st1 + d)); [|lia].
  simpl. by rewrite Hn, Hc.
Qed.

Lemma debounce_burst_keeps_last_witness :
  (300 ≤ 300)%N ∧
  Debounce.calls
    (Debounce.run 300
       ((Debounce.Invoke <$> [F_name; F_email])
        ++ [Debounce.Invoke F_message; Debounce.Elapse 300; Debounce.Fire; Debounce.Fire])
       Debounce.fresh)
  = [(300%N, F_message)].
Proof.
  assert (H300 : (300 ≤ 300)%N) by lia.
  split; [exact H300|].
  pose proof (debounce_burst_keeps_last 300 Debounce.fresh [F_name; F_email]
                F_message 300 H300) as H.
  cbv zeta in H. exact (proj1 H).
Defined.

Section throttle_facts.
Context {A : Type}.
Variable limit : N.
Implicit Types (st : Throttle.t A) (e : Throttle.event A) (es : list (Throttle.event A)).




End throttle_facts.




Section phone_facts.
Implicit Types (s phone : Js.str) (p : N → bool).

Lemma lang_times_class n p s :
  Regex.lang (regex_times n (Regex.Class p)) s ↔
  length s = n ∧ forallb p s = true.
Proof.
  revert s. induction n as [|n IH]; intros s; simpl.
  - split.
    + inversion 1. done.
    + intros [->%nil_length_inv _]. constructor.
  - split.
    + intros (s1 & s2 & -> & (c & -> & Hc)%RegexFacts.lang_class_inv & H2)%RegexFacts.lang_cat_inv.
      apply IH in H2 as [<- H2]. simpl. by rewrite Hc, H2.
    + intros [Hl Hp]. destruct s as [|c s]; [done|]. simpl in *.
      apply andb_true_iff in Hp as [Hc Hp].
      apply (Regex.lang_cat _ _ [c] s); [by constructor|].
      apply IH. split; [lia|done].
Qed.

(** The pattern accepts the strings of ten digits. *)
Lemma test_phone_regex s :
  Regex.test phone_regex s = true ↔ length s = 10 ∧ forallb is_digit s = true.
Proof.
  rewrite RegexFacts.test_lang. unfold phone_regex. split.
  - intros (s1 & s' & -> & [L1 P1]%lang_times_class & H)%RegexFacts.lang_cat_inv.
    apply RegexFacts.lang_cat_inv in H
      as (s2 & s3 & -> & [L2 P2]%lang_times_class & [L3 P3]%lang_times_class).
    rewrite !length_app, !forallb_app, P1, P2, P3. split; [lia|done].
  - intros [Hl Hp].
    rewrite <- (take_drop 3 s), <- (take_drop 3 (drop 3 s)) in Hp |- *.
    rewrite !forallb_app in Hp. apply andb_true_iff in Hp as [P1 [P2 P3]%andb_true_iff].
    apply Regex.lang_cat; [|apply Regex.lang_cat]; apply lang_times_class;
      (split; [|done]); rewrite ?length_take, ?length_drop; lia.
Qed.

Lemma forallb_strip phone : forallb is_digit (strip_non_digits phone) = true.
Proof.
  unfold strip_non_digits. induction phone as [|c r IH]; [done|]. simpl.
  destruct (is_digit c) eqn:E; [|done]. simpl. by rewrite E.
Qed.

Lemma strip_digits s : forallb is_digit s = true → strip_non_digits s = s.
Proof.
  unfold strip_non_digits. induction s as [|c r IH]; [done|]. simpl.
  intros [-> Hr]%andb_true_iff. by rewrite IH.
Qed.

Lemma strip_app s1 s2 :
  strip_non_digits (s1 ++ s2) = strip_non_digits s1 ++ strip_non_digits s2.
Proof. apply List.filter_app. Qed.

Lemma formatPhoneNumber_eq phone :
  formatPhoneNumber phone =
  let d := strip_non_digits phone in
  if decide (length d = 10)
  then Js.lit "(" ++ take 3 d ++ Js.lit ") " ++ take 3 (drop 3 d)
       ++ Js.lit "-" ++ drop 6 d
  else phone.
Proof.
  unfold formatPhoneNumber, match_phone. cbv zeta.
  destruct (Regex.test phone_regex (strip_non_digits phone)) eqn:E.
  - apply test_phone_regex in E as [E _]. by rewrite decide_True.
  - destruct (decide _) as [Hl|]; [|done].
    assert (Regex.test phone_regex (strip_non_digits phone) = true) as E'.
    { apply test_phone_regex. split; [done | apply forallb_strip]. }
    congruence.
Qed.

Lemma strip_formatted d :
  forallb is_digit d = true →
  strip_non_digits (Js.lit "(" ++ take 3 d ++ Js.lit ") " ++ take 3 (drop 3 d)
                    ++ Js.lit "-" ++ drop 6 d) = d.
Proof.
  intros Hd.
  assert (H3 : forallb is_digit (take 3 d) = true ∧
               forallb is_digit (take 3 (drop 3 d)) = true ∧
               forallb is_digit (drop 6 d) = true).
  { rewrite <- (take_drop 3 d), <- (take_drop 3 (drop 3 d)), !forallb_app in Hd.
    rewrite drop_drop in Hd.
    apply andb_true_iff in Hd as [P1 [P2 P3]%andb_true_iff]. done. }
  destruct H3 as (P1 & P2 & P3).
  rewrite !strip_app, (strip_digits _ P1), (strip_digits _ P2), (strip_digits _ P3).
  change (strip_non_digits (Js.lit "(")) with (@nil N).
  change (strip_non_digits (Js.lit ") ")) with (@nil N).
  change (strip_non_digits (Js.lit "-")) with (@nil N).
  simpl. replace (drop 6 d) with (drop 3 (drop 3 d)) by (by rewrite drop_drop).
  by rewrite (take_drop 3 (drop 3 d)), take_drop.
Qed.
End phone_facts.

(** X11. [formatPhoneNumber] rewrites its argument exactly when it holds
    ten ASCII digits, whatever else it holds: the result is then the
    fourteen characters [(ddd) ddd-dddd] over these digits in their
    order. In every other case the argument is returned as it is. *)
Theorem formatPhoneNumber_ten_digits (phone : Js.str) :
  let d := strip_non_digits phone in
  (length d = 10 →
     formatPhoneNumber phone
     = Js.lit "(" ++ take 3 d ++ Js.lit ") " ++ take 3 (drop 3 d)
       ++ Js.lit "-" ++ drop 6 d ∧
     length (formatPhoneNumber phone) = 14) ∧
  (length d ≠ 10 → formatPhoneNumber phone = phone).
Proof.
  cbv zeta. rewrite formatPhoneNumber_eq. cbv zeta. split; intros Hl.
  - rewrite decide_True by done. split; [done|].
    rewrite !length_app, !length_take, !length_drop, Hl.
    change (length (Js.lit "(")) with 1. change (length (Js.lit ") ")) with 2.
    change (length (Js.lit "-")) with 1. lia.
  - by rewrite decide_False.
Qed.

(** X12. [formatPhoneNumber] never changes the digits of its argument
    or their order, and formatting a formatted number changes nothing. *)
Theorem formatPhoneNumber_keeps_digits (phone : Js.str) :
  strip_non_digits (formatPhoneNumber phone) = strip_non_digits phone ∧
  formatPhoneNumber (formatPhoneNumber phone) = formatPhoneNumber phone.
Proof.
  assert (Hk : strip_non_digits (formatPhoneNumber phone) = strip_non_digits phone).
  { rewrite formatPhoneNumber_eq. cbv zeta. destruct (decide _); [|done].
    apply strip_formatted, forallb_strip. }
  split; [exact Hk|].
  rewrite (formatPhoneNumber_eq (formatPhoneNumber phone)). cbv zeta. rewrite Hk.
  rewrite (formatPhoneNumber_eq phone). cbv zeta.
  by destruct (decide _).
Qed.

Example formatPhoneNumber_examples :
  formatPhoneNumber (Js.lit "555.123.4567") = Js.lit "(555) 123-4567" ∧
  formatPhoneNumber (Js.lit "+1 555 123 4567") = Js.lit "+1 555 123 4567".
Proof. split; vm_compute; reflexivity. Qed.

Section email_facts.
Implicit Types (s l d t : Js.str) (p : N → bool).

Lemma lang_plus_class_intro p s :
  s ≠ [] → forallb p s = true → Regex.lang (Regex.Plus (Regex.Class p)) s.
Proof.
  destruct s as [|c s]; [done|]. intros _ [Hc Hs]%andb_true_iff.
  apply (Regex.lang_cat _ _ [c] s); [by constructor|].
  clear c Hc. induction s as [|c s IH]; [constructor|].
  apply andb_true_iff in Hs as [Hc Hs].
  apply (Regex.lang_star_cons _ [c] s); [by constructor | by apply IH].
Qed.

Lemma count_at_free l : forallb not_space_at l = true → count_occ N.eq_dec l 64%N = 0.
Proof.
  induction l as [|c l IH]; [done|]. intros [Hc Hl]%andb_true_iff. simpl.
  destruct (N.eq_dec c 64%N) as [->|]; [done | by apply IH].
Qed.
End email_facts.

(** X13. [isValidEmail] accepts exactly the strings [local@domain.tld]
    whose three parts are not empty and hold neither white space nor
    [@] (they may hold dots). Such a string holds one [@] only and no
    white space, and has at least five code units. *)
Theorem isValidEmail_accepts_exactly (email : Js.str) :
  (isValidEmail email = true ↔
     ∃ l d t, email = l ++ [64%N] ++ d ++ [46%N] ++ t ∧
              l ≠ [] ∧ d ≠ [] ∧ t ≠ [] ∧
              forallb not_space_at (l ++ d ++ t) = true) ∧
  (isValidEmail email = true →
     count_occ N.eq_dec email 64%N = 1 ∧
     forallb (λ c, negb (Js.is_space c)) email = true ∧
     5 ≤ length email).
Proof.
  assert (Hiff : isValidEmail email = true ↔
     ∃ l d t, email = l ++ [64%N] ++ d ++ [46%N] ++ t ∧
              l ≠ [] ∧ d ≠ [] ∧ t ≠ [] ∧
              forallb not_space_at (l ++ d ++ t) = true).
  { unfold isValidEmail. cbv zeta. rewrite RegexFacts.test_lang. unfold email_regex. split.
    - intros H.
      apply RegexFacts.lang_cat_inv in H
        as (l & s1 & -> & [Nl Hl]%RegexFacts.lang_plus_class & H).
      apply RegexFacts.lang_cat_inv in H
        as (a & s2 & -> & (c & -> & <-%N.eqb_eq)%RegexFacts.lang_class_inv & H).
      apply RegexFacts.lang_cat_inv in H
        as (d & s3 & -> & [Nd Hd]%RegexFacts.lang_plus_class & H).
      apply RegexFacts.lang_cat_inv in H
        as (a & t & -> & (c & -> & <-%N.eqb_eq)%RegexFacts.lang_class_inv
            & [Nt Ht]%RegexFacts.lang_plus_class).
      exists l, d, t. rewrite !forallb_app, Hl, Hd, Ht. done.
    - intros (l & d & t & -> & Nl & Nd & Nt & H).
      rewrite !forallb_app in H.
      apply andb_true_iff in H as [Hl [Hd Ht]%andb_true_iff].
      apply Regex.lang_cat; [by apply lang_plus_class_intro|].
      apply Regex.lang_cat; [by constructor|].
      apply Regex.lang_cat; [by apply lang_plus_class_intro|].
      apply Regex.lang_cat; [by constructor|].
      by apply lang_plus_class_intro. }
  split; [exact Hiff|].
  intros (l & d & t & -> & Nl & Nd & Nt & H)%Hiff.
  rewrite !forallb_app in H.
  apply andb_true_iff in H as [Hl [Hd Ht]%andb_true_iff].
  split; [|split].
  - rewrite !count_occ_app, !count_at_free by done.
    assert (count_occ N.eq_dec d 64%N = 0) as -> by (by apply count_at_free).
    assert (count_occ N.eq_dec t 64%N = 0) as -> by (by apply count_at_free).
    reflexivity.
  - rewrite !forallb_app, (not_space_at_not_space l), (not_space_at_not_space d),
      (not_space_at_not_space t) by done.
    reflexivity.
  - rewrite !length_app. simpl.
    destruct l, d, t; simpl; try done; lia.
Qed.

Section sanitize_facts.
Implicit Types (s : Js.str) (c : N).

Lemma sanitizeInput_cons c s :
  sanitizeInput (c :: s) = escape_text c ++ sanitizeInput s.
Proof. reflexivity. Qed.

Lemma escape_text_safe c :
  Forall (λ x, x ≠ 60%N ∧ x ≠ 62%N) (escape_text c).
Proof.
  unfold escape_text.
  destruct (N.eqb_spec c 38); [by repeat constructor|].
  destruct (N.eqb_spec c 160); [by repeat constructor|].
  destruct (N.eqb_spec c 60); [by repeat constructor|].
  destruct (N.eqb_spec c 62); [by repeat constructor|].
  by repeat constructor.
Qed.

Lemma escape_text_length c : 1 ≤ length (escape_text c).
Proof.
  unfold escape_text.
  repeat (destruct (_ =? _)%N; [vm_compute; lia|]). simpl. lia.
Qed.

Lemma sanitizeInput_length s : length s ≤ length (sanitizeInput s).
Proof.
  induction s as [|c s IH]; [done|].
  rewrite sanitizeInput_cons, length_app. pose proof (escape_text_length c). simpl. lia.
Qed.
End sanitize_facts.

(** X14. The result of [sanitizeInput] holds no angle bracket, so it
    opens no tag when used as markup. The function changes its argument
    exactly when the argument holds an ampersand, a no-break space or an
    angle bracket; quotation marks are never escaped. *)
Theorem sanitizeInput_escapes (input : Js.str) :
  Forall (λ c, c ≠ 60%N ∧ c ≠ 62%N) (sanitizeInput input) ∧
  (sanitizeInput input = input ↔
     Forall (λ c, c ≠ 38%N ∧ c ≠ 160%N ∧ c ≠ 60%N ∧ c ≠ 62%N) input) ∧
  count_occ N.eq_dec (sanitizeInput input) 34%N = count_occ N.eq_dec input 34%N ∧
  count_occ N.eq_dec (sanitizeInput input) 39%N = count_occ N.eq_dec input 39%N.
Proof.
  split; [|split; [|split]].
  - induction input as [|c s IH]; [constructor|].
    rewrite sanitizeInput_cons. apply Forall_app. split; [apply escape_text_safe | done].
  - induction input as [|c s IH]; [by split; [constructor|]|].
    rewrite sanitizeInput_cons, Forall_cons. unfold escape_text.
    destruct (N.eqb_spec c 38) as [->|].
    { split; [|intros [[[] _] _]; done].
      intros E. pose proof (sanitizeInput_length s) as Hl.
      apply (f_equal length) in E. rewrite length_app in E.
      change (length (Js.lit "&amp;")) with 5 in E. simpl in E. lia. }
    destruct (N.eqb_spec c 160) as [->|].
    { split; [|intros [(_ & [] & _) _]; done].
      intros E. pose proof (sanitizeInput_length s) as Hl.
      apply (f_equal length) in E. rewrite length_app in E.
      change (length (Js.lit "&nbsp;")) with 6 in E. simpl in E. lia. }
    destruct (N.eqb_spec c 60) as [->|].
    { split; [|intros [(_ & _ & [] & _) _]; done].
      intros E. pose proof (sanitizeInput_length s) as Hl.
      apply (f_equal length) in E. rewrite length_app in E.
      change (length (Js.lit "&lt;")) with 4 in E. simpl in E. lia. }
    destruct (N.eqb_spec c 62) as [->|].
    { split; [|intros [(_ & _ & _ & []) _]; done].
      intros E. pose proof (sanitizeInput_length s) as Hl.
      apply (f_equal length) in E. rewrite length_app in E.
      change (length (Js.lit "&gt;")) with 4 in E. simpl in E. lia. }
    simpl. split.
    + intros [= E]. split; [done | by apply IH].
    + intros [_ H]. f_equal. by apply IH.
  - induction input as [|c s IH]; [done|].
    rewrite sanitizeInput_cons, count_occ_app, IH. unfold escape_text.
    destruct (N.eqb_spec c 38) as [->|]; [reflexivity|].
    destruct (N.eqb_spec c 160) as [->|]; [reflexivity|].
    destruct (N.eqb_spec c 60) as [->|]; [reflexivity|].
    destruct (N.eqb_spec c 62) as [->|]; [reflexivity|].
    simpl. destruct (N.eq_dec c _); lia.
  - induction input as [|c s IH]; [done|].
    rewrite sanitizeInput_cons, count_occ_app, IH. unfold escape_text.
    destruct (N.eqb_spec c 38) as [->|]; [reflexivity|].
    destruct (N.eqb_spec c 160) as [->|]; [reflexivity|].
    destruct (N.eqb_spec c 60) as [->|]; [reflexivity|].
    destruct (N.eqb_spec c 62) as [->|]; [reflexivity|].
    simpl. destruct (N.eq_dec c _); lia.
Qed.

Section header_facts.
Import HeaderScroll.
Implicit Types (st : HeaderScroll.t) (w : Z) (y : Qc).

Lemma handleScroll_narrow w y st :
  (w ≤ 1024)%Z → HeaderScroll.inv st → HeaderScroll.inv (handleScroll w y st).
Proof.
  intros Hw [Hf Hh]. unfold handleScroll, updateHeaderVisibility, updateHeaderBackground.
  destruct (Z.ltb_spec 1024 w); [lia|]. cbv zeta.
  assert (Hsame : ∀ b : bool,
    isHeaderHidden (if b then
       {| header := {| backgroundColor := "rgba(255, 255, 255, 0.98)";
                       backdropFilter := "blur(15px)";
                       transform := transform (header st) |};
          lastScrollTop := lastScrollTop st; isHeaderHidden := isHeaderHidden st |}
     else
       {| header := {| backgroundColor := "rgba(255, 255, 255, 0.95)";
                       backdropFilter := "blur(10px)";
                       transform := transform (header st) |};
          lastScrollTop := lastScrollTop st; isHeaderHidden := isHeaderHidden st |})
    = isHeaderHidden st) by (by intros []).
  destruct (bool_decide (Qc_of_Z CONFIG.SCROLL_THRESHOLD < y)%Qc); simpl;
    destruct (bool_decide (lastScrollTop st < y)%Qc) eqn:Hdown; simpl;
    destruct (bool_decide (Qc_of_Z CONFIG.HEADER_HIDE_THRESHOLD < y)%Qc) eqn:Hlow; simpl;
    destruct (isHeaderHidden st) eqn:Hhid; simpl;
    try apply bool_decide_eq_true_1 in Hlow;
    try apply bool_decide_eq_true_1 in Hdown;
    (split; simpl; [split; try done; try (intros E; by apply Hf in E)|]);
    try done; intros _;
    try exact Hlow;
    try (eapply Qclt_trans; [apply Hh; done | exact Hdown]).
Qed.

Lemma run_narrow (scrolls : list (Z * Qc)) st :
  Forall (λ c, (c.1 ≤ 1024)%Z) scrolls →
  HeaderScroll.inv st → HeaderScroll.inv (run scrolls st).
Proof.
  intros H. revert st. induction H as [|[w y] scrolls Hw _ IH]; intros st Hi; [done|].
  cbn [run foldl]. apply IH. by apply handleScroll_narrow.
Qed.

Lemma handleScroll_wide w y st :
  (1024 < w)%Z →
  isHeaderHidden (handleScroll w y st) = isHeaderHidden st ∧
  transform (header (handleScroll w y st)) = transform (header st).
Proof.
  intros Hw. unfold handleScroll, updateHeaderVisibility, updateHeaderBackground.
  destruct (Z.ltb_spec 1024 w); [|lia]. cbv zeta.
  by destruct (bool_decide _).
Qed.
End header_facts.

(** X15. While the window is at most 1024 px wide, the flag
    [isHeaderHidden] is set exactly when the header carries the hiding
    transform, and the header is only hidden while the page is scrolled
    more than 200 px down: near the top of the page it is always shown. *)
Theorem header_hidden_only_when_scrolled
    (style : HeaderScroll.Style) (scrolls : list (Z * Qc)) :
  HeaderScroll.transform style ≠ "translateY(-100%)" →
  Forall (λ c, (c.1 ≤ 1024)%Z) scrolls →
  let st := HeaderScroll.run scrolls (HeaderScroll.new style) in
  (HeaderScroll.isHeaderHidden st = true ↔
     HeaderScroll.transform (HeaderScroll.header st) = "translateY(-100%)") ∧
  (HeaderScroll.isHeaderHidden st = true →
     (Qc_of_Z 200 < HeaderScroll.lastScrollTop st)%Qc).
Proof.
  intros Hs Hw. cbv zeta. apply (run_narrow scrolls _ Hw).
  split; simpl; [split; done | done].
Qed.

Lemma header_hidden_only_when_scrolled_witness :
  "" ≠ "translateY(-100%)" ∧
  Forall (λ c : Z * Qc, (c.1 ≤ 1024)%Z) [(800%Z, Qc_of_Z 150); (800%Z, Qc_of_Z 300)] ∧
  (HeaderScroll.isHeaderHidden
     (HeaderScroll.run [(800%Z, Qc_of_Z 150); (800%Z, Qc_of_Z 300)]
        (HeaderScroll.new
           {| HeaderScroll.backgroundColor := ""; HeaderScroll.backdropFilter := "";
              HeaderScroll.transform := "" |})) = true ↔
   HeaderScroll.transform (HeaderScroll.header
     (HeaderScroll.run [(800%Z, Qc_of_Z 150); (800%Z, Qc_of_Z 300)]
        (HeaderScroll.new
           {| HeaderScroll.backgroundColor := ""; HeaderScroll.backdropFilter := "";
              HeaderScroll.transform := "" |}))) = "translateY(-100%)").
Proof.
  assert (Hs : "" ≠ "translateY(-100%)") by discriminate.
  assert (Hw : Forall (λ c : Z * Qc, (c.1 ≤ 1024)%Z)
                 [(800%Z, Qc_of_Z 150); (800%Z, Qc_of_Z 300)])
    by (repeat constructor; simpl; lia).
  split; [exact Hs|]. split; [exact Hw|].
  pose proof (header_hidden_only_when_scrolled
                {| HeaderScroll.backgroundColor := ""; HeaderScroll.backdropFilter := "";
                   HeaderScroll.transform := "" |}
                [(800%Z, Qc_of_Z 150); (800%Z, Qc_of_Z 300)] Hs Hw) as H.
  cbv zeta in H. exact (proj1 H).
Defined.

(** X16. In a window wider than 1024 px [handleScroll] neither hides nor
    shows the header: a header that was hidden before the window was
    widened stays hidden however the page is scrolled. *)
Theorem header_visibility_frozen_when_wide
    (st : HeaderScroll.t) (scrolls : list (Z * Qc)) :
  Forall (λ c, (1024 < c.1)%Z) scrolls →
  HeaderScroll.isHeaderHidden (HeaderScroll.run scrolls st)
  = HeaderScroll.isHeaderHidden st ∧
  HeaderScroll.transform (HeaderScroll.header (HeaderScroll.run scrolls st))
  = HeaderScroll.transform (HeaderScroll.header st).
Proof.
  intros H. revert st. induction H as [|[w y] scrolls Hw _ IH]; intros st; [done|].
  cbn [HeaderScroll.run foldl].
  destruct (handleScroll_wide w y st Hw) as [<- <-]. apply IH.
Qed.

Lemma header_visibility_frozen_when_wide_witness :
  Forall (λ c : Z * Qc, (1024 < c.1)%Z) [(1280%Z, Qc_of_Z 0)] ∧
  HeaderScroll.isHeaderHidden
    (HeaderScroll.run [(1280%Z, Qc_of_Z 0)]
       (HeaderScroll.hideHeader
          (HeaderScroll.new
             {| HeaderScroll.backgroundColor := ""; HeaderScroll.backdropFilter := "";
                HeaderScroll.transform := "" |})))
  = HeaderScroll.isHeaderHidden
      (HeaderScroll.hideHeader
         (HeaderScroll.new
            {| HeaderScroll.backgroundColor := ""; HeaderScroll.backdropFilter := "";
               HeaderScroll.transform := "" |})).
Proof.
  assert (Hw : Forall (λ c : Z * Qc, (1024 < c.1)%Z) [(1280%Z, Qc_of_Z 0)])
    by (repeat constructor; simpl; lia).
  split; [exact Hw|].
  exact (proj1 (header_visibility_frozen_when_wide _ _ Hw)).
Defined.

(** A header hidden on a narrow window and left hidden on a wide one:
    scrolled back to the top in a window of 1280 px, it is still hidden. *)
Example header_stays_hidden_after_widening :
  HeaderScroll.isHeaderHidden
    (HeaderScroll.run
       [(800%Z, Qc_of_Z 300); (1280%Z, Qc_of_Z 100); (1280%Z, Qc_of_Z 0)]
       (HeaderScroll.new
          {| HeaderScroll.backgroundColor := ""; HeaderScroll.backdropFilter := "";
             HeaderScroll.transform := "" |})) = true.
Proof. vm_compute. reflexivity. Qed.

Section nav_facts.
Import MobileNav.
Implicit Types (st : MobileNav.t) (e : MobileNav.event).

Lemma open_agrees st : agrees (open st) ∧ isOpen (open st) = true.
Proof.
  unfold open, trapFocus, animateToggleIcon, agrees. cbv zeta. simpl.
  destruct (decide _); simpl; repeat split; done.
Qed.

Lemma close_agrees st :
  agrees (close st) ∧ isOpen (close st) = false ∧ tabTraps (close st) = tabTraps st.
Proof.
  unfold close, animateToggleIcon, agrees. simpl.
  repeat split; try done; intros; discriminate.
Qed.

Lemma step_agrees e st : agrees st → agrees (step e st).
Proof.
  intros H. destruct e as [| | | |w]; simpl.
  - unfold toggle. destruct (isOpen st); [apply close_agrees | apply open_agrees].
  - apply close_agrees.
  - destruct (isOpen st); [apply close_agrees | done].
  - destruct (isOpen st) eqn:E; [repeat split; try done; intros; discriminate|].
    unfold agrees in *. simpl. exact H.
  - destruct (_ && _); [apply close_agrees | done].
Qed.

Lemma open_traps st :
  focusable st ≠ 0 → tabTraps (open st) = S (tabTraps st) ∧ focusable (open st) = focusable st.
Proof.
  intros H. unfold open, trapFocus, animateToggleIcon. cbv zeta. simpl.
  by rewrite decide_False.
Qed.
End nav_facts.

(** X17. When the page starts with the menu closed, then after any
    clicks, Escape keys and resizes the flag [isOpen], the class
    [active] of the list, the attribute [aria-expanded] of the button and
    the scroll lock of the body agree: all say open or all say closed. *)
Theorem nav_state_agrees (page : MobileNav.t) (es : list MobileNav.event) :
  MobileNav.active page = false →
  MobileNav.aria_expanded page ≠ Some "true" →
  MobileNav.overflow page ≠ "hidden" →
  let st := MobileNav.run es (MobileNav.new page) in
  MobileNav.active st = MobileNav.isOpen st ∧
  (MobileNav.aria_expanded st = Some "true" ↔ MobileNav.isOpen st = true) ∧
  (MobileNav.overflow st = "hidden" ↔ MobileNav.isOpen st = true).
Proof.
  intros Ha He Ho. cbv zeta.
  assert (H0 : MobileNav.agrees (MobileNav.new page)).
  { unfold MobileNav.agrees. simpl. by repeat split. }
  revert H0. generalize (MobileNav.new page).
  induction es as [|e es IH]; intros st H; [exact H|].
  cbn [MobileNav.run foldl]. apply IH. by apply step_agrees.
Qed.

(** X18. The Tab handler that [trapFocus] registers when the menu opens
    is removed by the Escape key only. Closing the menu with a click
    leaves it registered: after [n] rounds of opening and closing the
    menu with the toggle button the menu is closed and [n] Tab handlers
    are registered. *)
Theorem nav_tab_handlers_pile_up (page : MobileNav.t) (n : nat) :
  MobileNav.focusable page ≠ 0 →
  let st := MobileNav.run
              (mjoin (replicate n [MobileNav.ClickToggle; MobileNav.ClickToggle]))
              (MobileNav.new page) in
  MobileNav.isOpen st = false ∧ MobileNav.tabTraps st = n.
Proof.
  intros Hf. cbv zeta.
  assert (H : ∀ st, MobileNav.isOpen st = false → MobileNav.focusable st ≠ 0 →
    let st' := MobileNav.run
                 (mjoin (replicate n [MobileNav.ClickToggle; MobileNav.ClickToggle])) st in
    MobileNav.isOpen st' = false ∧ MobileNav.tabTraps st' = n + MobileNav.tabTraps st).
  { induction n as [|n IH]; intros st Hc Hfo; [done|].
    cbv zeta.
    change (mjoin (replicate (S n) [MobileNav.ClickToggle; MobileNav.ClickToggle]))
      with ([MobileNav.ClickToggle; MobileNav.ClickToggle]
            ++ mjoin (replicate n [MobileNav.ClickToggle; MobileNav.ClickToggle])).
    unfold MobileNav.run. rewrite foldl_app.
    assert (E : foldl (λ st e, MobileNav.step e st) st
                  [MobileNav.ClickToggle; MobileNav.ClickToggle]
                = MobileNav.close (MobileNav.open st)).
    { cbn [foldl MobileNav.step]. unfold MobileNav.toggle at 2. rewrite Hc.
      unfold MobileNav.toggle. by rewrite (proj2 (open_agrees st)). }
    rewrite E. clear E.
    destruct (open_traps st Hfo) as [Ht Hfo'].
    destruct (close_agrees (MobileNav.open st)) as (_ & Hc' & Ht').
    assert (Hfo'' : MobileNav.focusable (MobileNav.close (MobileNav.open st)) ≠ 0).
    { change (MobileNav.focusable (MobileNav.close (MobileNav.open st)))
        with (MobileNav.focusable (MobileNav.open st)). by rewrite Hfo'. }
    destruct (IH (MobileNav.close (MobileNav.open st)) Hc' Hfo'') as [E1 E2].
    unfold MobileNav.run in E1, E2. rewrite E1, E2, Ht', Ht. split; [done|lia]. }
  destruct (H (MobileNav.new page) eq_refl Hf) as [-> ->]. simpl. split; [done|lia].
Qed.

Lemma nav_state_agrees_witness :
  MobileNav.active
    {| MobileNav.isOpen := false; MobileNav.active := false;
       MobileNav.aria_expanded := Some "false"; MobileNav.overflow := "";
       MobileNav.lines := []; MobileNav.focusable := 3;
       MobileNav.activeElement := None; MobileNav.tabTraps := 0 |} = false ∧
  Some "false" ≠ Some "true" ∧
  "" ≠ "hidden" ∧
  MobileNav.active
    (MobileNav.run [MobileNav.ClickToggle; MobileNav.ClickOutside]
       (MobileNav.new
          {| MobileNav.isOpen := false; MobileNav.active := false;
             MobileNav.aria_expanded := Some "false"; MobileNav.overflow := "";
             MobileNav.lines := []; MobileNav.focusable := 3;
             MobileNav.activeElement := None; MobileNav.tabTraps := 0 |}))
  = MobileNav.isOpen
      (MobileNav.run [MobileNav.ClickToggle; MobileNav.ClickOutside]
         (MobileNav.new
            {| MobileNav.isOpen := false; MobileNav.active := false;
               MobileNav.aria_expanded := Some "false"; MobileNav.overflow := "";
               MobileNav.lines := []; MobileNav.focusable := 3;
               MobileNav.activeElement := None; MobileNav.tabTraps := 0 |})).
Proof.
  assert (He : Some "false" ≠ Some "true") by discriminate.
  assert (Ho : "" ≠ "hidden") by discriminate.
  split; [reflexivity|]. split; [exact He|]. split; [exact Ho|].
  pose proof (nav_state_agrees
                {| MobileNav.isOpen := false; MobileNav.active := false;
                   MobileNav.aria_expanded := Some "false"; MobileNav.overflow := "";
                   MobileNav.lines := []; MobileNav.focusable := 3;
                   MobileNav.activeElement := None; MobileNav.tabTraps := 0 |}
                [MobileNav.ClickToggle; MobileNav.ClickOutside] eq_refl He Ho) as H.
  cbv zeta in H. exact (proj1 H).
Defined.

Lemma nav_tab_handlers_pile_up_witness :
  3 ≠ 0 ∧
  MobileNav.tabTraps
    (MobileNav.run
       (mjoin (replicate 2 [MobileNav.ClickToggle; MobileNav.ClickToggle]))
       (MobileNav.new
          {| MobileNav.isOpen := false; MobileNav.active := false;
             MobileNav.aria_expanded := Some "false"; MobileNav.overflow := "";
             MobileNav.lines := []; MobileNav.focusable := 3;
             MobileNav.activeElement := None; MobileNav.tabTraps := 0 |})) = 2.
Proof.
  assert (H3 : 3 ≠ 0) by discriminate.
  split; [exact H3|].
  pose proof (nav_tab_handlers_pile_up
                {| MobileNav.isOpen := false; MobileNav.active := false;
                   MobileNav.aria_expanded := Some "false"; MobileNav.overflow := "";
                   MobileNav.lines := []; MobileNav.focusable := 3;
                   MobileNav.activeElement := None; MobileNav.tabTraps := 0 |}
                2 H3) as H.
  cbv zeta in H. exact (proj2 H).
Defined.

Section analytics_facts.
Import Analytics.
Implicit Types (st : Analytics.t) (env : Env) (p : Rounded).

Lemma track_one env p m st :
  m ∈ scrollMilestones → inv st →
  inv (if ge p m && negb (bool_decide (m ∈ trackedMilestones st))
       then trackEvent env "Scroll_Depth"
              [("percentage", VNum m);
               ("device_type", VStr (getDeviceType (innerWidth env)));
               ("timestamp", VNum (date_now env))]
              {| events := events st;
                 trackedMilestones := {[m]} ∪ trackedMilestones st |}
       else st).
Proof.
  intros Hm (ms & He & Hnd & Hsub & Ht).
  destruct (ge p m); simpl; [|by exists ms].
  destruct (bool_decide_reflect (m ∈ trackedMilestones st)) as [|Hn]; simpl;
    [by exists ms|].
  exists (ms ++ [m]). split; [|split; [|split]].
  - unfold trackEvent. cbn [events]. rewrite !fmap_app, He. reflexivity.
  - apply NoDup_app. split; [done|]. split; [|apply NoDup_singleton].
    intros x Hx ->%list_elem_of_singleton. apply Hn. rewrite Ht.
    by apply elem_of_list_to_set.
  - intros x [?| ->%list_elem_of_singleton]%elem_of_app; [by apply Hsub | done].
  - unfold trackEvent. cbn [trackedMilestones].
    rewrite list_to_set_app_L, Ht. simpl.
    rewrite (right_id_L ∅ (∪)). apply (comm_L (∪)).
Qed.

Lemma trackScrollDepth_inv env p st : inv st → inv (trackScrollDepth env p st).
Proof.
  intros H. unfold trackScrollDepth, scrollMilestones. cbn [foldl].
  repeat (apply track_one;
          [unfold scrollMilestones; repeat first [apply list_elem_of_here
                                                 | apply list_elem_of_further]|]).
  exact H.
Qed.

Lemma run_inv_analytics (calls : list (Env * Rounded)) st :
  inv st → inv (run calls st).
Proof.
  revert st. induction calls as [|[env p] calls IH]; intros st H; [done|].
  cbn [run foldl]. apply IH. by apply trackScrollDepth_inv.
Qed.

Lemma track_one_grows env p m st :
  let st' := (if ge p m && negb (bool_decide (m ∈ trackedMilestones st))
       then trackEvent env "Scroll_Depth"
              [("percentage", VNum m);
               ("device_type", VStr (getDeviceType (innerWidth env)));
               ("timestamp", VNum (date_now env))]
              {| events := events st;
                 trackedMilestones := {[m]} ∪ trackedMilestones st |}
       else st) in
  trackedMilestones st ⊆ trackedMilestones st' ∧
  (ge p m = true → m ∈ trackedMilestones st').
Proof.
  cbv zeta. destruct (ge p m); simpl; [|split; [done|discriminate]].
  destruct (bool_decide_reflect (m ∈ trackedMilestones st)) as [Hin|Hn]; simpl.
  - split; [done|]. by intros _.
  - split; [apply union_subseteq_r|]. intros _. apply elem_of_union_l.
    by apply elem_of_singleton_2.
Qed.

Lemma track_fold_grows env p (l : list Z) st :
  let st' := foldl (λ st milestone,
       if ge p milestone && negb (bool_decide (milestone ∈ trackedMilestones st))
       then trackEvent env "Scroll_Depth"
              [("percentage", VNum milestone);
               ("device_type", VStr (getDeviceType (innerWidth env)));
               ("timestamp", VNum (date_now env))]
              {| events := events st;
                 trackedMilestones := {[milestone]} ∪ trackedMilestones st |}
       else st) st l in
  trackedMilestones st ⊆ trackedMilestones st' ∧
  ∀ m, m ∈ l → ge p m = true → m ∈ trackedMilestones st'.
Proof.
  cbv zeta. revert st. induction l as [|m0 l IH]; intros st.
  { split; [done|]. intros m Hm. by apply elem_of_nil in Hm. }
  cbn [foldl]. destruct (track_one_grows env p m0 st) as [S1 R1].
  cbv zeta in S1, R1.
  match goal with |- context [foldl _ ?s l] => destruct (IH s) as [S2 R2] end.
  split; [by etrans|].
  intros m [->|Hm]%elem_of_cons Hge.
  - apply S2. by apply R1.
  - by apply R2.
Qed.
End analytics_facts.

(** X19. Whatever scroll percentages [trackScrollDepth] is called with,
    every event in the log reports one of the milestones 25, 50, 75 and
    100, no milestone is reported twice, and the set of tracked
    milestones holds exactly the reported ones; so at most four events
    are logged. An undefined percentage (0/0) reports nothing. *)
Theorem scroll_milestones_once (calls : list (Analytics.Env * Analytics.Rounded)) :
  let st := Analytics.run calls Analytics.new in
  (∃ ms, Analytics.percentage <$> Analytics.events st = Some <$> ms ∧
         NoDup ms ∧ ms ⊆ Analytics.scrollMilestones ∧
         Analytics.trackedMilestones st = list_to_set ms) ∧
  length (Analytics.events st) ≤ 4 ∧
  ∀ env st0, Analytics.trackScrollDepth env Analytics.NaN st0 = st0.
Proof.
  cbv zeta.
  assert (H0 : Analytics.inv Analytics.new).
  { exists []. split; [done|]. split; [constructor|].
    split; [|reflexivity]. intros x Hx. by apply elem_of_nil in Hx. }
  pose proof (run_inv_analytics calls _ H0) as (ms & He & Hnd & Hsub & Ht).
  split; [by exists ms|]. split; [|done].
  apply (f_equal length) in He. rewrite !length_fmap in He. rewrite He.
  assert (Hs : ms ⊆+ Analytics.scrollMilestones) by (by apply NoDup_submseteq).
  apply submseteq_length in Hs. exact Hs.
Qed.

(** X20. After a call of [trackScrollDepth] with an integer percentage
    every milestone up to that percentage is tracked, and a milestone
    once tracked stays tracked. *)
Theorem scroll_milestones_reached
    (env : Analytics.Env) (z : Z) (st : Analytics.t) :
  let st' := Analytics.trackScrollDepth env (Analytics.Integer z) st in
  Analytics.trackedMilestones st ⊆ Analytics.trackedMilestones st' ∧
  ∀ m, m ∈ Analytics.scrollMilestones → (m ≤ z)%Z →
       m ∈ Analytics.trackedMilestones st'.
Proof.
  cbv zeta. unfold Analytics.trackScrollDepth.
  destruct (track_fold_grows env (Analytics.Integer z) Analytics.scrollMilestones st)
    as [Hs Hr].
  split; [exact Hs|]. intros m Hm Hz. apply Hr; [done|]. simpl. lia.
Qed.
